(** * DataGrid: the tabular state of src/DataGrid.js

    A shallow embedding of the React component [DataGrid]: its state
    variables, the event handlers that update them, and the properties of
    the canonical dataset / projection / selection / edit cursor that the
    specification states.

    Modelling conventions.
    - A JS string is a [string] whose characters are code units in the
      range U+0000..U+00FF.
    - A JS number is an integer ([Z]); cell values are the scalars of the
      data model plus [undefined], the result of reading a missing key.
    - Row objects live in a store and arrays hold references into it, so
      that [===] on rows is equality of references, and a spread copy
      [{...row}] is the allocation of a new object. *)

From Stdlib Require Import ZArith String Ascii List Bool Permutation Sorted Lia.
From Stdlib Require Import DecimalString.
From stdpp Require Import base list.

Open Scope string_scope.
Open Scope list_scope.
Open Scope Z_scope.
Open Scope nat_scope.

(** ** Strings *)

Module JsString.

(** Code units that [String.prototype.trim] strips: TAB, LF, VT, FF, CR,
    SPACE and NBSP (the white space and line terminators below U+0100). *)
Definition isWhiteSpace (c : ascii) : bool :=
  let n := nat_of_ascii c in
  ((9 <=? n) && (n <=? 13)) || (n =? 32) || (n =? 160).

Fixpoint trimStart (s : string) : string :=
  match s with
  | EmptyString => EmptyString
  | String c s' => if isWhiteSpace c then trimStart s' else s
  end.

(** [trimEnd] drops the trailing white space: a character is kept when
    something that is not white space follows it or it is not white
    space itself. *)
Fixpoint trimEnd (s : string) : string :=
  match s with
  | EmptyString => EmptyString
  | String c s' =>
      match trimEnd s' with
      | EmptyString => if isWhiteSpace c then EmptyString else String c EmptyString
      | t => String c t
      end
  end.

Definition trim (s : string) : string := trimEnd (trimStart s).

(** [toLowerCase] on one code unit: A-Z, and the Latin-1 capitals
    U+00C0..U+00DE except the multiplication sign U+00D7. *)
Definition lowerUnit (c : ascii) : ascii :=
  let n := nat_of_ascii c in
  if ((65 <=? n) && (n <=? 90))
     || ((192 <=? n) && (n <=? 222) && negb (n =? 215))
  then ascii_of_nat (n + 32) else c.

Fixpoint toLowerCase (s : string) : string :=
  match s with
  | EmptyString => EmptyString
  | String c s' => String (lowerUnit c) (toLowerCase s')
  end.

(** [s.includes(t)]: [t] occurs in [s] at some position. *)
Fixpoint includes (s t : string) : bool :=
  if String.prefix t s then true
  else match s with
       | EmptyString => false
       | String _ s' => includes s' t
       end.

(** [s.endsWith(t)]. *)
Fixpoint endsWith (s t : string) : bool :=
  if String.eqb s t then true
  else match s with
       | EmptyString => false
       | String _ s' => endsWith s' t
       end.

(** [s < t] on two strings: lexicographic order of the code units, a
    proper prefix being smaller. *)
Fixpoint ltb (s t : string) : bool :=
  match s, t with
  | _, EmptyString => false
  | EmptyString, String _ _ => true
  | String a s', String b t' =>
      if (nat_of_ascii a <? nat_of_ascii b) then true
      else if (nat_of_ascii b <? nat_of_ascii a) then false
      else ltb s' t'
  end.

(** Reading a string as an integer literal. *)
Definition digitValue (c : ascii) : option Z :=
  let n := nat_of_ascii c in
  if (48 <=? n) && (n <=? 57) then Some (Z.of_nat (n - 48)) else None.

Fixpoint digits (acc : Z) (s : string) : option Z :=
  match s with
  | EmptyString => Some acc
  | String c s' =>
      match digitValue c with
      | Some d => digits (10 * acc + d)%Z s'
      | None => None
      end
  end.

(** [StringToNumber]: white space is trimmed, the empty string is 0, an
    optionally signed run of decimal digits is its value, and anything
    else is NaN ([None]).  Numbers being integers here, literals with a
    fraction, an exponent or a radix prefix, and [Infinity], lie outside
    the modelled values. *)
Definition StringToNumber (s : string) : option Z :=
  match trim s with
  | EmptyString => Some 0%Z
  | String "+" (String c r) => digits 0 (String c r)
  | String "-" (String c r) => option_map Z.opp (digits 0 (String c r))
  | t => digits 0 t
  end.

End JsString.

(** ** Values and row objects *)

Inductive value : Type :=
| VUndefined
| VNull
| VBool (b : bool)
| VNum (n : Z)
| VStr (s : string).

(** [String(value)]; a number prints as its decimal digits, as JS prints
    the integers below 10^21. *)
Definition String_ (v : value) : string :=
  match v with
  | VUndefined => "undefined"
  | VNull => "null"
  | VBool true => "true"
  | VBool false => "false"
  | VNum n => NilEmpty.string_of_int (Z.to_int n)
  | VStr s => s
  end.

(** [ToNumber(value)], [None] standing for NaN. *)
Definition ToNumber (v : value) : option Z :=
  match v with
  | VUndefined => None
  | VNull => Some 0%Z
  | VBool true => Some 1%Z
  | VBool false => Some 0%Z
  | VNum n => Some n
  | VStr s => JsString.StringToNumber s
  end.

(** [a < b]: two strings compare as strings; otherwise both sides are
    converted to numbers and a NaN on either side makes the test false. *)
Definition js_lt (a b : value) : bool :=
  match a, b with
  | VStr s, VStr t => JsString.ltb s t
  | _, _ =>
      match ToNumber a, ToNumber b with
      | Some x, Some y => (x <? y)%Z
      | _, _ => false
      end
  end.

(** [a > b] is [b < a]. *)
Definition js_gt (a b : value) : bool := js_lt b a.

(** A row object: its own properties in insertion order.  Keys are taken
    not to be array indices (which JS enumerates first) nor names found on
    [Object.prototype]. *)
Abbreviation Row := (list (string * value)).

(** [row[k]]. *)
Fixpoint row_get (r : Row) (k : string) : value :=
  match r with
  | [] => VUndefined
  | (k', v) :: r' => if String.eqb k' k then v else row_get r' k
  end.

(** [{...r, [k]: v}] / [r[k] = v]: an existing key keeps its position, a
    new key goes last.  That is the order in which JS enumerates the keys
    that are not array indices ([ordinaryKey] below); a new array index
    would be enumerated before them. *)
Fixpoint row_set (r : Row) (k : string) (v : value) : Row :=
  match r with
  | [] => [(k, v)]
  | (k', v') :: r' =>
      if String.eqb k' k then (k', v) :: r' else (k', v') :: row_set r' k v
  end.

Definition Object_keys (r : Row) : list string := map fst r.
Definition Object_values (r : Row) : list value := map snd r.

(** ** The object store and arrays of row references *)

Abbreviation loc := nat.

(** Objects in allocation order; the reference of an object is its
    position. *)
Abbreviation Store := (list Row).

(** Allocation of a new object. *)
Definition alloc (h : Store) (r : Row) : Store * loc := (h ++ [r], length h).

(** The object behind a reference; spreading [undefined] gives the empty
    object, which is also the reading of a reference that was never
    allocated. *)
Definition deref (h : Store) (l : loc) : Row := default [] (h !! l).

(** [{...a[i]}]: the properties of the element at [i], none when [a[i]] is
    [undefined]. *)
Definition spreadAt (h : Store) (a : list loc) (i : nat) : Row :=
  match a !! i with
  | Some l => deref h l
  | None => []
  end.

(** A JS array of rows: its indexed elements, and the property named [-1]
    that [handleCellEdit] writes when [findIndex] finds nothing.  Array
    methods, [length] and the spread [[...a]] see the elements only. *)
Record JsArray : Type := mkArray {
  elems : list loc;
  prop_minus1 : option loc
}.

(** [[...a]] and array literals: a new array without extra properties. *)
Definition arrayOf (l : list loc) : JsArray := mkArray l None.

(** [a.findIndex(row => row === target)], [None] standing for -1. *)
Fixpoint findIndex (a : list loc) (target : loc) : option nat :=
  match a with
  | [] => None
  | x :: a' =>
      if Nat.eqb x target then Some 0
      else option_map S (findIndex a' target)
  end.

(** [rows.includes(row)] for an array whose entries may be [undefined]. *)
Definition includes_ref (rows : list (option loc)) (row : loc) : bool :=
  existsb (fun o => match o with Some x => Nat.eqb x row | None => false end) rows.

(** ** Component state *)

Record Column : Type := mkColumn {
  key : string;
  label : string;
  type : string
}.

Inductive Direction : Type := asc | desc.

Record SortConfig : Type := mkSortConfig {
  sortKey : option string;
  direction : Direction
}.

Record EditingCell : Type := mkEditingCell {
  row : nat;
  column : string
}.

(** The [useState] variables of the component, and the object store they
    point into.  [selectedRows] is a JS [Set]: insertion ordered, without
    repetition. *)
Record State : Type := mkState {
  store : Store;
  data : JsArray;
  columns : list Column;
  filteredData : JsArray;
  searchTerm : string;
  sortConfig : SortConfig;
  isUploading : bool;
  selectedRows : list nat;
  editingCell : option EditingCell
}.

Definition initialState : State :=
  {| store := [];
     data := arrayOf [];
     columns := [];
     filteredData := arrayOf [];
     searchTerm := "";
     sortConfig := mkSortConfig None asc;
     isUploading := false;
     selectedRows := [];
     editingCell := None |}.

(** *** resetDataGrid *)
Definition resetDataGrid (s : State) : State :=
  {| store := store s;
     data := arrayOf [];
     columns := [];
     filteredData := arrayOf [];
     searchTerm := "";
     sortConfig := mkSortConfig None asc;
     isUploading := isUploading s;
     selectedRows := [];
     editingCell := None |}.

(** *** handleSearch *)

(** [Object.values(row).some(value =>
       String(value).toLowerCase().includes(term.toLowerCase()))] *)
Definition rowMatches (term : string) (r : Row) : bool :=
  existsb
    (fun v => JsString.includes (JsString.toLowerCase (String_ v))
                                (JsString.toLowerCase term))
    (Object_values r).

Definition handleSearch (s : State) (term : string) : State :=
  let filtered :=
    if String.eqb (JsString.trim term) ""
    then data s
    else arrayOf (List.filter (fun l => rowMatches term (deref (store s) l))
                              (elems (data s))) in
  {| store := store s;
     data := data s;
     columns := columns s;
     filteredData := filtered;
     searchTerm := term;
     sortConfig := sortConfig s;
     isUploading := isUploading s;
     selectedRows := selectedRows s;
     editingCell := editingCell s |}.

(** *** handleSort *)

(** The comparator passed to [sort]. *)
Definition compareRows (h : Store) (columnKey : string) (d : Direction)
    (a b : loc) : Z :=
  let aVal := row_get (deref h a) columnKey in
  let bVal := row_get (deref h b) columnKey in
  if js_lt aVal bVal then match d with asc => -1 | desc => 1 end
  else if js_gt aVal bVal then match d with asc => 1 | desc => -1 end
  else 0.

(** [Array.prototype.sort] is a stable sort.  It is modelled as the stable
    insertion sort: an element goes in front of the first element of the
    sorted remainder that it does not compare greater than.  Where the
    comparator is a consistent order (a column of numbers only, or of
    strings only) every stable sort returns this list; where it is not (a
    column that mixes the two) the order is left to the engine, which may
    return another permutation. *)
Fixpoint insertBy (cmp : loc -> loc -> Z) (x : loc) (l : list loc) : list loc :=
  match l with
  | [] => [x]
  | y :: l' => if (cmp x y <=? 0)%Z then x :: y :: l' else y :: insertBy cmp x l'
  end.

Fixpoint Array_sort (cmp : loc -> loc -> Z) (l : list loc) : list loc :=
  match l with
  | [] => []
  | x :: l' => insertBy cmp x (Array_sort cmp l')
  end.

Definition string_opt_eqb (o : option string) (k : string) : bool :=
  match o with
  | Some k' => String.eqb k' k
  | None => false
  end.

Definition direction_eqb (a b : Direction) : bool :=
  match a, b with
  | asc, asc | desc, desc => true
  | _, _ => false
  end.

(** The direction [handleSort] picks for a click on [columnKey]. *)
Definition nextDirection (c : SortConfig) (columnKey : string) : Direction :=
  if string_opt_eqb (sortKey c) columnKey && direction_eqb (direction c) asc
  then desc else asc.

Definition handleSort (s : State) (columnKey : string) : State :=
  let d := nextDirection (sortConfig s) columnKey in
  let sorted :=
    Array_sort (compareRows (store s) columnKey d) (elems (filteredData s)) in
  {| store := store s;
     data := data s;
     columns := columns s;
     filteredData := arrayOf sorted;
     searchTerm := searchTerm s;
     sortConfig := mkSortConfig (Some columnKey) d;
     isUploading := isUploading s;
     selectedRows := selectedRows s;
     editingCell := editingCell s |}.

(** *** Row selection *)

Definition toggleRowSelection (s : State) (rowIndex : nat) : State :=
  let newSelected :=
    if existsb (Nat.eqb rowIndex) (selectedRows s)
    then List.filter (fun i => negb (Nat.eqb i rowIndex)) (selectedRows s)
    else selectedRows s ++ [rowIndex] in
  {| store := store s;
     data := data s;
     columns := columns s;
     filteredData := filteredData s;
     searchTerm := searchTerm s;
     sortConfig := sortConfig s;
     isUploading := isUploading s;
     selectedRows := newSelected;
     editingCell := editingCell s |}.

(** The header check box: every projection index, or nothing. *)
Definition selectAll (s : State) (checked : bool) : State :=
  {| store := store s;
     data := data s;
     columns := columns s;
     filteredData := filteredData s;
     searchTerm := searchTerm s;
     sortConfig := sortConfig s;
     isUploading := isUploading s;
     selectedRows :=
       if checked then seq 0 (length (elems (filteredData s))) else [];
     editingCell := editingCell s |}.

(** *** Cell editing *)

(** A click on a cell: [setEditingCell({ row, column })]. *)
Definition beginEdit (s : State) (rowIndex : nat) (columnKey : string) : State :=
  {| store := store s;
     data := data s;
     columns := columns s;
     filteredData := filteredData s;
     searchTerm := searchTerm s;
     sortConfig := sortConfig s;
     isUploading := isUploading s;
     selectedRows := selectedRows s;
     editingCell := Some (mkEditingCell rowIndex columnKey) |}.

(** Blur, or Enter: [setEditingCell(null)]. *)
Definition endEdit (s : State) : State :=
  {| store := store s;
     data := data s;
     columns := columns s;
     filteredData := filteredData s;
     searchTerm := searchTerm s;
     sortConfig := sortConfig s;
     isUploading := isUploading s;
     selectedRows := selectedRows s;
     editingCell := None |}.

(** [handleCellEdit(rowIndex, columnKey, newValue)].

    The table calls it with the index of a rendered row, that is a valid
    index of [filteredData].  For an index beyond the array JS would grow
    [newFilteredData] with holes, which [JsArray] does not represent: the
    embedding answers [None] there.

    With [actualRowIndex = -1] the assignment [newData[-1] = {...}] spreads
    [undefined] into a new object and stores it under the property [-1] of
    the copy; no element of the copy changes. *)
Definition handleCellEdit (s : State) (rowIndex : nat) (columnKey : string)
    (newValue : value) : option State :=
  match elems (filteredData s) !! rowIndex with
  | None => None
  | Some projected =>
      let actualRowIndex := findIndex (elems (data s)) projected in
      let '(h1, newData) :=
        match actualRowIndex with
        | Some i =>
            let '(h1, o) :=
              alloc (store s)
                (row_set (spreadAt (store s) (elems (data s)) i)
                         columnKey newValue) in
            (h1, arrayOf (<[i := o]> (elems (data s))))
        | None =>
            let '(h1, o) := alloc (store s) (row_set [] columnKey newValue) in
            (h1, mkArray (elems (data s)) (Some o))
        end in
      let '(h2, o2) :=
        alloc h1 (row_set (deref h1 projected) columnKey newValue) in
      Some {| store := h2;
              data := newData;
              columns := columns s;
              filteredData := arrayOf (<[rowIndex := o2]> (elems (filteredData s)));
              searchTerm := searchTerm s;
              sortConfig := sortConfig s;
              isUploading := isUploading s;
              selectedRows := selectedRows s;
              editingCell := None |}
  end.

(** *** addNewRow *)

(** [columns.forEach(col => { newRow[col.key] = ''; })] on [newRow = {}]. *)
Definition blankRow (cols : list Column) : Row :=
  fold_left (fun r col => row_set r (key col) (VStr "")) cols [].

Definition addNewRow (s : State) : State :=
  let '(h1, newRow) := alloc (store s) (blankRow (columns s)) in
  let newData := arrayOf (elems (data s) ++ [newRow]) in
  {| store := h1;
     data := newData;
     columns := columns s;
     filteredData := newData;
     searchTerm := searchTerm s;
     sortConfig := sortConfig s;
     isUploading := isUploading s;
     selectedRows := selectedRows s;
     editingCell := editingCell s |}.

(** *** deleteSelectedRows *)

(** [selectedIndices.map(index => filteredData[index])]; an index beyond
    the projection yields [undefined]. *)
Definition rowsToDelete (s : State) : list (option loc) :=
  map (fun index => elems (filteredData s) !! index) (selectedRows s).

Definition deleteSelectedRows (s : State) : State :=
  let newData :=
    arrayOf (List.filter (fun r => negb (includes_ref (rowsToDelete s) r))
                         (elems (data s))) in
  {| store := store s;
     data := newData;
     columns := columns s;
     filteredData := newData;
     searchTerm := searchTerm s;
     sortConfig := sortConfig s;
     isUploading := isUploading s;
     selectedRows := [];
     editingCell := editingCell s |}.

(** *** handleFileUpload *)

(** What [Papa.parse] reports for a file.  It calls [complete(results)]
    once the content has been gone through: [results.data] holds the rows
    it made of the content and [results.errors] what it found malformed in
    it (a record with too few or too many fields, a quote left open, ...);
    the handler reads [results.data] only.  Or it calls [error(error)],
    when the file could not be read. *)
Inductive PapaOutcome : Type :=
| PapaComplete (results_data : list Row) (results_errors : list string)
| PapaError (error : string).

(** A JSON document whose elements are objects: an array of rows or a
    single row. *)
Inductive JsonDocument : Type :=
| JsonArray (rows : list Row)
| JsonObject (r : Row).

(** What [JSON.parse] does on the text of a file: it returns a document or
    throws. *)
Inductive JsonOutcome : Type :=
| JsonReturns (jsonData : JsonDocument)
| JsonThrows (error : string).

(** An uploaded file.  The handler sees its content only through the two
    parsers, so a file carries, besides [file.name] and [file.type], what
    each parser makes of its content. *)
Record File : Type := mkFile {
  fileName : string;
  fileType : string;
  papaParse : PapaOutcome;
  jsonParse : JsonOutcome
}.

(** One [console.error(message, error)]. *)
Definition LogEntry : Type := (string * string)%type.

(** Parsed rows are new objects, allocated in order. *)
Definition allocAll (h : Store) (rows : list Row) : Store * list loc :=
  (h ++ rows, seq (length h) (length rows)).

Definition csvColumn (k : string) : Column :=
  mkColumn (JsString.trim k) (JsString.trim k) "text".

Definition jsonColumn (k : string) : Column := mkColumn k k "text".

(** The three setters of a successful import, and [setIsUploading(false)]. *)
Definition loadRows (s : State) (mk : string -> Column) (rows : list Row) : State :=
  match rows with
  | [] =>
      {| store := store s;
         data := data s;
         columns := columns s;
         filteredData := filteredData s;
         searchTerm := searchTerm s;
         sortConfig := sortConfig s;
         isUploading := false;
         selectedRows := selectedRows s;
         editingCell := editingCell s |}
  | first :: _ =>
      let '(h1, arr) := allocAll (store s) rows in
      {| store := h1;
         data := arrayOf arr;
         columns := map mk (Object_keys first);
         filteredData := arrayOf arr;
         searchTerm := searchTerm s;
         sortConfig := sortConfig s;
         isUploading := false;
         selectedRows := selectedRows s;
         editingCell := editingCell s |}
  end.

Definition setIsUploading (s : State) (b : bool) : State :=
  {| store := store s;
     data := data s;
     columns := columns s;
     filteredData := filteredData s;
     searchTerm := searchTerm s;
     sortConfig := sortConfig s;
     isUploading := b;
     selectedRows := selectedRows s;
     editingCell := editingCell s |}.

Definition isCsv (f : File) : bool :=
  String.eqb (fileType f) "text/csv" || JsString.endsWith (fileName f) ".csv".

Definition isJson (f : File) : bool := String.eqb (fileType f) "application/json".

(** The handler together with the parser callback it registers, run to
    completion: the new state and what was written to the console. *)
Definition handleFileUpload (s : State) (file : option File)
    : State * list LogEntry :=
  match file with
  | None => (s, [])
  | Some f =>
      if isCsv f then
        match papaParse f with
        | PapaComplete results_data _ =>
            (loadRows s csvColumn results_data, [])
        | PapaError error =>
            (setIsUploading s false, [("CSV parsing error:", error)])
        end
      else if isJson f then
        match jsonParse f with
        | JsonReturns jsonData =>
            let arrayData :=
              match jsonData with
              | JsonArray rows => rows
              | JsonObject r => [r]
              end in
            (loadRows s jsonColumn arrayData, [])
        | JsonThrows error =>
            (setIsUploading s false, [("JSON parsing error:", error)])
        end
      else (setIsUploading s true, [])
  end.

(** *** exportData *)

Module Papa.

Definition quoteChar : string := String "034"%char EmptyString.
Definition delimiter : string := ",".
Definition newline : string := String "013"%char (String "010"%char EmptyString).

(** Every quote character doubled. *)
Fixpoint escapeQuotes (s : string) : string :=
  match s with
  | EmptyString => EmptyString
  | String c s' =>
      if Ascii.eqb c "034"%char
      then String c (String c (escapeQuotes s'))
      else String c (escapeQuotes s')
  end.

Fixpoint lastIsSpace (s : string) : bool :=
  match s with
  | EmptyString => false
  | String c EmptyString => Ascii.eqb c " "%char
  | String _ s' => lastIsSpace s'
  end.

Definition firstIsSpace (s : string) : bool :=
  match s with
  | String c _ => Ascii.eqb c " "%char
  | EmptyString => false
  end.

Definition needsQuotes (s : string) : bool :=
  JsString.includes s quoteChar
  || JsString.includes s delimiter
  || JsString.includes s (String "013"%char EmptyString)
  || JsString.includes s (String "010"%char EmptyString)
  || firstIsSpace s || lastIsSpace s.

(** One field: [null] and [undefined] are empty; other values are their
    string with the quotes doubled, put between quotes when it holds a
    quote, the delimiter, a line break, or a space at either end. *)
Definition safe (v : value) : string :=
  match v with
  | VUndefined | VNull => ""
  | _ =>
      let e := escapeQuotes (String_ v) in
      if needsQuotes (String_ v) then quoteChar ++ e ++ quoteChar else e
  end.

(** Modelled from the spec: [Papa.unparse] belongs to the papaparse
    package, which is not part of src/.  The export is comma-delimited
    with a header row and one row per record.  The call passes the
    records alone, so the header is read off the records: the keys of
    the first one; no record gives no line at all, and a first record
    without keys gives no header.  Each record is written by looking up
    the header's keys in it. *)
Definition unparseLines (records : list Row) : list (list string) :=
  match records with
  | [] => []
  | first :: _ =>
      let fields := Object_keys first in
      let body := map (fun r => map (fun k => safe (row_get r k)) fields) records in
      match fields with
      | [] => body
      | _ => map (fun k => safe (VStr k)) fields :: body
      end
  end.

Definition unparse (records : list Row) : string :=
  String.concat newline (map (String.concat delimiter) (unparseLines records)).

End Papa.

(** The file handed to the browser: [a.download], the blob's type and its
    text. *)
Record Download : Type := mkDownload {
  download : string;
  blobType : string;
  blobText : string
}.

(** The records [exportData] passes to [Papa.unparse]. *)
Definition exportedRecords (s : State) : list Row :=
  map (deref (store s)) (elems (filteredData s)).

Definition exportData (s : State) : Download :=
  let csv := Papa.unparse (exportedRecords s) in
  {| download := "data-export.csv"; blobType := "text/csv"; blobText := csv |}.

(** ** Events and reachable states *)

Inductive Event : Type :=
| Upload (file : option File)
| Search (term : string)
| Sort (columnKey : string)
| Toggle (rowIndex : nat)
| SelectAll (checked : bool)
| BeginEdit (rowIndex : nat) (columnKey : string)
| CommitEdit (rowIndex : nat) (columnKey : string) (newValue : value)
| EndEdit
| AddRow
| DeleteSelected
| Export
| Reset.

Definition step (s : State) (e : Event) : option State :=
  match e with
  | Upload file => Some (fst (handleFileUpload s file))
  | Search term => Some (handleSearch s term)
  | Sort columnKey => Some (handleSort s columnKey)
  | Toggle rowIndex => Some (toggleRowSelection s rowIndex)
  | SelectAll checked => Some (selectAll s checked)
  | BeginEdit rowIndex columnKey => Some (beginEdit s rowIndex columnKey)
  | CommitEdit rowIndex columnKey newValue =>
      handleCellEdit s rowIndex columnKey newValue
  | EndEdit => Some (endEdit s)
  | AddRow => Some (addNewRow s)
  | DeleteSelected => Some (deleteSelectedRows s)
  | Export => Some s
  | Reset => Some (resetDataGrid s)
  end.

Fixpoint run (s : State) (es : list Event) : option State :=
  match es with
  | [] => Some s
  | e :: es' =>
      match step s e with
      | Some s' => run s' es'
      | None => None
      end
  end.

(** A state the component can be in: the result of some events from the
    initial state. *)
Definition reachable (s : State) : Prop :=
  exists es, run initialState es = Some s.

(** ** What the rendered component offers *)

(** The header check box:
    [selectedRows.size === filteredData.length && filteredData.length > 0]. *)
Definition headerChecked (s : State) : bool :=
  (length (selectedRows s) =? length (elems (filteredData s)))
  && (0 <? length (elems (filteredData s))).

(** [columnKey] is the key of a column of [columns.map]. *)
Definition hasColumn (s : State) (columnKey : string) : bool :=
  existsb (fun col => String.eqb (key col) columnKey) (columns s).

(** [editingCell?.row === rowIndex && editingCell?.column === column.key] *)
Definition isEditing (s : State) (rowIndex : nat) (columnKey : string) : bool :=
  match editingCell s with
  | Some ec => Nat.eqb (row ec) rowIndex && String.eqb (column ec) columnKey
  | None => false
  end.

(** A cell of the table: a row of [filteredData.map] and a column of
    [columns.map]. *)
Definition renderedCell (s : State) (rowIndex : nat) (columnKey : string) : bool :=
  (rowIndex <? length (elems (filteredData s))) && hasColumn s columnKey.

(** The events the returned JSX can fire in state [s].

    With [data.length === 0] only the file input is rendered, disabled
    while [isUploading].  Otherwise the controls, the table and the footer
    are rendered: the search box, Add Row, New Upload and EXIT, Export, the
    Delete button when the selection is not empty, the header check box
    (whose change event carries the negation of what it shows), one
    sortable header per column, one check box per projected row, and per
    cell either the input (change with the text typed, blur, Enter) when
    the cell is the one in edit mode, or the clickable text. *)
Definition enabled (s : State) (e : Event) : bool :=
  match elems (data s) with
  | [] =>
      match e with
      | Upload _ => negb (isUploading s)
      | _ => false
      end
  | _ :: _ =>
      match e with
      | Upload _ => false
      | Search _ | AddRow | Reset | Export => true
      | DeleteSelected => 0 <? length (selectedRows s)
      | SelectAll checked => Bool.eqb checked (negb (headerChecked s))
      | Sort columnKey => hasColumn s columnKey
      | Toggle rowIndex => rowIndex <? length (elems (filteredData s))
      | BeginEdit rowIndex columnKey =>
          renderedCell s rowIndex columnKey
          && negb (isEditing s rowIndex columnKey)
      | CommitEdit rowIndex columnKey newValue =>
          renderedCell s rowIndex columnKey
          && isEditing s rowIndex columnKey
          && match newValue with VStr _ => true | _ => false end
      | EndEdit =>
          match editingCell s with
          | Some ec => renderedCell s (row ec) (column ec)
          | None => false
          end
      end
  end.

(** Running events that the component offers, one after the other. *)
Fixpoint uiRun (s : State) (es : list Event) : option State :=
  match es with
  | [] => Some s
  | e :: es' =>
      if enabled s e then
        match step s e with
        | Some s' => uiRun s' es'
        | None => None
        end
      else None
  end.

(** A state a user can bring the component to. *)
Definition uiReachable (s : State) : Prop :=
  exists es, uiRun initialState es = Some s.

(** The rows a file hands to the handler's loading code: the column
    constructor of its branch and [results.data], or [arrayData]. *)
Definition parsedRows (f : File) : option ((string -> Column) * list Row) :=
  if isCsv f then
    match papaParse f with
    | PapaComplete results_data _ => Some (csvColumn, results_data)
    | PapaError _ => None
    end
  else if isJson f then
    match jsonParse f with
    | JsonReturns (JsonArray rows) => Some (jsonColumn, rows)
    | JsonReturns (JsonObject r) => Some (jsonColumn, [r])
    | JsonThrows _ => None
    end
  else None.

(** An array index: the canonical decimal form of an integer from 0 to
    2^32 - 2.  JS enumerates the own keys that are array indices first, in
    ascending order, whenever they were added. *)
Definition isArrayIndex (k : string) : bool :=
  match k with
  | EmptyString => false
  | String c rest =>
      match JsString.digits 0 k with
      | Some n =>
          (n <=? 4294967294)%Z
          && (negb (Ascii.eqb c "0"%char)
              || match rest with EmptyString => true | _ => false end)
      | None => false
      end
  end.

(** The names every object inherits from [Object.prototype]: reading one
    of them on a row finds the inherited property when the row has no own
    one, and assigning to [__proto__] adds no own property. *)
Definition inheritedNames : list string :=
  ["constructor"; "__proto__"; "hasOwnProperty"; "isPrototypeOf";
   "propertyIsEnumerable"; "toLocaleString"; "toString"; "valueOf";
   "__defineGetter__"; "__defineSetter__"; "__lookupGetter__";
   "__lookupSetter__"].

(** A key on which a row object behaves as the list of its own
    properties in insertion order: neither an array index nor an
    inherited name. *)
Definition ordinaryKey (k : string) : bool :=
  negb (isArrayIndex k) && negb (existsb (String.eqb k) inheritedNames).

(** Equality of two cell values. *)
Definition value_eqb (a b : value) : bool :=
  match a, b with
  | VUndefined, VUndefined | VNull, VNull => true
  | VBool x, VBool y => Bool.eqb x y
  | VNum x, VNum y => (x =? y)%Z
  | VStr x, VStr y => String.eqb x y
  | _, _ => false
  end.

(** * Vocabulary of the specification *)

(** A search term that is empty or made of white space only. *)
Fixpoint whitespaceOnly (s : string) : bool :=
  match s with
  | EmptyString => true
  | String c s' => JsString.isWhiteSpace c && whitespaceOnly s'
  end.

(** [t] is a substring of [s] when letter case is ignored. *)
Definition containsIgnoringCase (s t : string) : Prop :=
  exists pre post,
    JsString.toLowerCase s = (pre ++ JsString.toLowerCase t ++ post)%string.

(** The row behind [l] has a field whose string representation contains
    the term. *)
Definition MatchesTerm (h : Store) (term : string) (l : loc) : Prop :=
  exists v, In v (Object_values (deref h l)) /\ containsIgnoringCase (String_ v) term.

(** [Keeps P l l']: [l'] consists of exactly the elements of [l] that
    satisfy [P], in the order of [l]. *)
Inductive Keeps (P : loc -> Prop) : list loc -> list loc -> Prop :=
| Keeps_nil : Keeps P [] []
| Keeps_take x l l' : P x -> Keeps P l l' -> Keeps P (x :: l) (x :: l')
| Keeps_drop x l l' : ~ P x -> Keeps P l l' -> Keeps P (x :: l) l'.

(** The cell of column [columnKey] in the row behind [l]. *)
Definition cellOf (h : Store) (columnKey : string) (l : loc) : value :=
  row_get (deref h l) columnKey.

(** Row [a] may stand before row [b] in direction [d]: ascending, [a]'s
    cell is not greater than [b]'s; descending, it is not less. *)
Definition InOrder (h : Store) (columnKey : string) (d : Direction)
    (a b : loc) : Prop :=
  match d with
  | asc => js_gt (cellOf h columnKey a) (cellOf h columnKey b) = false
  | desc => js_lt (cellOf h columnKey a) (cellOf h columnKey b) = false
  end.

Definition isNumber (v : value) : Prop := exists n, v = VNum n.
Definition isString (v : value) : Prop := exists t, v = VStr t.

(** Every cell of the column is a number, or every cell is a string: the
    columns on which [<] and [>] order the rows. *)
Definition Homogeneous (h : Store) (columnKey : string) (l : list loc) : Prop :=
  Forall (fun x => isNumber (cellOf h columnKey x)) l
  \/ Forall (fun x => isString (cellOf h columnKey x)) l.

(** Every reference held by the array is an object of the store. *)
Definition allocated (h : Store) (a : JsArray) : Prop :=
  Forall (fun l => l < length h) (elems a).

(** No array of the state holds a dangling reference. *)
Definition wellFormed (s : State) : Prop :=
  allocated (store s) (data s) /\ allocated (store s) (filteredData s).

(** The row behind [l] is shown in the projection at a selected index. *)
Definition SelectedRow (s : State) (l : loc) : Prop :=
  exists i, In i (selectedRows s) /\ elems (filteredData s) !! i = Some l.

(** The two paths of the handler that write to the console: the file is
    handled as CSV and [Papa.parse] calls [error], or it is handled as
    JSON and [JSON.parse] throws [error]. *)
Definition parseFails (f : File) (error : string) : Prop :=
  (isCsv f = true /\ papaParse f = PapaError error)
  \/ (isCsv f = false /\ isJson f = true /\ jsonParse f = JsonThrows error).

(** The CSV cells of a header made of the schema's keys. *)
Definition schemaHeader (s : State) : list string :=
  map (fun c => Papa.safe (VStr (key c))) (columns s).

(** ** The scenario of the specification *)

(** [name,age / Alice,30 / Bob,25], and a third record. *)
Definition alice : Row := [("name", VStr "Alice"); ("age", VNum 30)].
Definition bob : Row := [("name", VStr "Bob"); ("age", VNum 25)].
Definition carol : Row := [("name", VStr "Carol"); ("age", VNum 41)].

Definition peopleCsv : File :=
  mkFile "people.csv" "text/csv" (PapaComplete [alice; bob; carol] [])
         (JsonThrows "Unexpected token").

Definition cityJson : File :=
  mkFile "city.json" "application/json" (PapaError "")
         (JsonReturns (JsonObject [("city", VStr "Oslo")])).

Definition brokenJson : File :=
  mkFile "broken.json" "application/json" (PapaError "")
         (JsonThrows "Unexpected end of JSON input").

(** The state after the upload of [peopleCsv]. *)
Definition loaded : State :=
  Eval vm_compute in fst (handleFileUpload initialState (Some peopleCsv)).

(** The state after two clicks on [age]: sorted, descending. *)
Definition sortedDescending : State :=
  handleSort (handleSort loaded "age") "age".

(** The state after one edit of Alice's name: the canonical array and the
    projection now hold two different copies of the row. *)
Definition editedOnce : State :=
  Eval vm_compute in
    match handleCellEdit loaded 0 "name" (VStr "A") with
    | Some s => s
    | None => loaded
    end.

(** Alice and Carol selected in the state just loaded. *)
Definition selectedTwo : State :=
  toggleRowSelection (toggleRowSelection loaded 0) 2.

(** The state after the search for [ali]: Alice only is shown. *)
Definition searchedAli : State := handleSearch loaded "ali".

(** Searches that match nothing, on two datasets with different
    schemas. *)
Definition searchedNothing : State := handleSearch loaded "zzz".

Definition cityLoaded : State :=
  Eval vm_compute in fst (handleFileUpload initialState (Some cityJson)).

Definition citySearchedNothing : State := handleSearch cityLoaded "zzz".

(** A JSON file that the browser reports without the JSON media type. *)
Definition untypedJson : File :=
  mkFile "city.json" "" (PapaError "")
         (JsonReturns (JsonObject [("city", VStr "Oslo")])).

(** A CSV file whose second header cell starts with a space. *)
Definition spacedCsv : File :=
  mkFile "spaced.csv" "text/csv"
         (PapaComplete [[("name", VStr "Alice"); (" age", VNum 30)]] [])
         (JsonThrows "Unexpected token").

(** A CSV file with a header and no record, and the empty JSON array. *)
Definition headerOnlyCsv : File :=
  mkFile "empty.csv" "text/csv" (PapaComplete [] []) (JsonThrows "Unexpected token").

(** [name,age / Alice,30 / Bob]: the last record has one field for two
    headers.  Papa makes a row of what is there and reports the record in
    [results.errors]. *)
Definition shortBob : Row := [("name", VStr "Bob")].

Definition malformedCsv : File :=
  mkFile "people.csv" "text/csv"
         (PapaComplete [alice; shortBob]
            ["Too few fields: expected 2 fields but parsed 1"])
         (JsonThrows "Unexpected token").

(** Two rows of the same age around a younger one. *)
Definition tiedCsv : File :=
  mkFile "tied.csv" "text/csv"
         (PapaComplete [[("name", VStr "Alice"); ("age", VNum 30)];
                        [("name", VStr "Bob"); ("age", VNum 25)];
                        [("name", VStr "Dave"); ("age", VNum 30)]] [])
         (JsonThrows "Unexpected token").

Definition tiedAges : State :=
  Eval vm_compute in fst (handleFileUpload initialState (Some tiedCsv)).

(** A column that holds strings and a number. *)
Definition mixedJson : File :=
  mkFile "mixed.json" "application/json" (PapaError "")
         (JsonReturns (JsonArray [[("v", VStr "b")]; [("v", VNum 1)];
                                  [("v", VStr "a")]])).

Definition mixedLoaded : State :=
  Eval vm_compute in fst (handleFileUpload initialState (Some mixedJson)).

(** * Properties *)

(** ** Values: a few readings *)

Example key_kinds :
  isArrayIndex "0" = true /\ isArrayIndex "2020" = true
  /\ isArrayIndex "02020" = false /\ isArrayIndex "4294967295" = false
  /\ isArrayIndex "age" = false /\ isArrayIndex "" = false
  /\ ordinaryKey "age" = true /\ ordinaryKey "2020" = false
  /\ ordinaryKey "constructor" = false.
Proof. repeat split; reflexivity. Qed.

Example String_examples :
  String_ (VNum (-30)) = "-30" /\ String_ (VNum 0) = "0"
  /\ JsString.toLowerCase "Alice B" = "alice b"
  /\ JsString.trim "  a b  " = "a b"
  /\ JsString.includes "alice" "lic" = true
  /\ JsString.includes "alice" "" = true
  /\ JsString.includes "alice" "bob" = false
  /\ JsString.endsWith "data.csv" ".csv" = true
  /\ JsString.StringToNumber " -12 " = Some (-12)%Z
  /\ JsString.StringToNumber "1a" = None
  /\ js_lt (VStr "10") (VStr "9") = true
  /\ js_lt (VNum 9) (VStr "10") = true
  /\ js_lt (VNum 1) VUndefined = false.
Proof. repeat split; reflexivity. Qed.

(** ** Strings: what [includes] and a blank [trim] mean *)

Section StringFacts.

Local Open Scope string_scope.

Lemma prefix_app (t s : string) :
  String.prefix t s = true <-> exists post, s = t ++ post.
Proof.
  revert s. induction t as [|c t IH]; intros s.
  - split; [intros _; exists s; reflexivity|]. intros _. destruct s; reflexivity.
  - destruct s as [|d s]; simpl.
    + split; [discriminate|]. intros [post H]. discriminate.
    + destruct (Ascii.ascii_dec c d) as [->|Hne].
      * rewrite IH. split; intros [post H]; exists post.
        -- now rewrite H.
        -- now injection H.
      * split; [discriminate|]. intros [post H]. injection H as H1 H2. congruence.
Qed.

Lemma includes_unfold (s t : string) :
  JsString.includes s t =
  if String.prefix t s then true
  else match s with
       | EmptyString => false
       | String _ s' => JsString.includes s' t
       end.
Proof. destruct s; reflexivity. Qed.

(** [s.includes(t)] holds exactly when [t] is a substring of [s]. *)
Lemma includes_spec (s t : string) :
  JsString.includes s t = true <-> exists pre post, s = pre ++ t ++ post.
Proof.
  split.
  - induction s as [|c s IH]; rewrite includes_unfold.
    + destruct (String.prefix t "") eqn:E; [|discriminate].
      intros _. apply prefix_app in E as [post E]. now exists "", post.
    + destruct (String.prefix t (String c s)) eqn:E.
      * intros _. apply prefix_app in E as [post E]. now exists "", post.
      * intros H. destruct (IH H) as (pre & post & ->).
        now exists (String c pre), post.
  - intros (pre & post & ->). induction pre as [|c pre IH].
    + rewrite includes_unfold.
      replace (String.prefix t ("" ++ t ++ post)) with true; [reflexivity|].
      symmetry. apply prefix_app. now exists post.
    + rewrite includes_unfold.
      change (String c pre ++ t ++ post) with (String c (pre ++ t ++ post)).
      destruct (String.prefix t (String c (pre ++ t ++ post))); [reflexivity|].
      exact IH.
Qed.

Lemma trimEnd_empty (s : string) :
  JsString.trimEnd s = "" <-> whitespaceOnly s = true.
Proof.
  induction s as [|c s IH]; simpl; [tauto|].
  destruct (JsString.trimEnd s) eqn:E.
  - destruct (JsString.isWhiteSpace c); simpl.
    + rewrite <- IH. tauto.
    + split; discriminate.
  - split; [discriminate|].
    intros H. apply andb_true_iff in H as [_ H]. apply IH in H. discriminate.
Qed.

Lemma whitespaceOnly_trimStart (s : string) :
  whitespaceOnly (JsString.trimStart s) = whitespaceOnly s.
Proof.
  induction s as [|c s IH]; simpl; [reflexivity|].
  destruct (JsString.isWhiteSpace c) eqn:E; simpl; [exact IH|].
  now rewrite E.
Qed.

(** [!term.trim()] holds exactly for the empty and the white-space-only
    terms. *)
Lemma trim_blank (s : string) :
  String.eqb (JsString.trim s) "" = whitespaceOnly s.
Proof.
  destruct (whitespaceOnly s) eqn:E.
  - apply String.eqb_eq, trimEnd_empty. now rewrite whitespaceOnly_trimStart.
  - apply String.eqb_neq. intros H. apply trimEnd_empty in H.
    rewrite whitespaceOnly_trimStart in H. congruence.
Qed.

End StringFacts.

(** ** Search *)

Lemma filter_Keeps (f : loc -> bool) (P : loc -> Prop) (l : list loc) :
  (forall x, f x = true <-> P x) -> Keeps P l (List.filter f l).
Proof.
  intros Hf. induction l as [|x l IH]; simpl.
  - constructor.
  - destruct (f x) eqn:E.
    + apply Keeps_take; [now apply Hf | exact IH].
    + apply Keeps_drop; [|exact IH]. intros HP. apply Hf in HP. congruence.
Qed.


Lemma rowMatches_spec (h : Store) (term : string) (l : loc) :
  rowMatches term (deref h l) = true <-> MatchesTerm h term l.
Proof.
  unfold rowMatches, MatchesTerm, containsIgnoringCase.
  rewrite existsb_exists.
  split; intros (v & Hin & Hv); exists v; (split; [exact Hin|]);
    now apply includes_spec.
Qed.

Lemma handleSearch_blank (s : State) (term : string) :
  whitespaceOnly term = true -> filteredData (handleSearch s term) = data s.
Proof. intros H. unfold handleSearch; simpl. now rewrite trim_blank, H. Qed.

(** C4. With an empty or white-space-only term the projection is the
    canonical dataset itself; with any other term it consists of exactly
    the rows of the dataset, in dataset order, that have a field whose
    string representation contains the term, letter case ignored. *)
Theorem handleSearch_projection (s : State) (term : string) :
  (whitespaceOnly term = true ->
   filteredData (handleSearch s term) = data s)
  /\ (whitespaceOnly term = false ->
      Keeps (MatchesTerm (store s) term)
            (elems (data s)) (elems (filteredData (handleSearch s term)))).
Proof.
  split; [apply handleSearch_blank|].
  unfold handleSearch; simpl. rewrite trim_blank. intros ->; simpl.
  apply filter_Keeps. intros x. apply rowMatches_spec.
Qed.

(** The scenario of the specification: searching [ali] shows Alice only,
    and a blank term shows everything again. *)
Example search_ali :
  elems (filteredData (handleSearch loaded "ali")) = [0]
  /\ deref (store loaded) 0 = alice
  /\ elems (filteredData (handleSearch (handleSearch loaded "ali") "  "))
     = [0; 1; 2].
Proof. repeat split; reflexivity. Qed.

(** C9. A sort click and a change of the search term leave the canonical
    dataset (the array, hence its rows and their order, and the row
    objects in the store), the column schema and the selection set as they
    were: no selected index is dropped or remapped. *)
Theorem sort_search_frame (s : State) (columnKey term : string) :
  (data (handleSort s columnKey) = data s
   /\ store (handleSort s columnKey) = store s
   /\ columns (handleSort s columnKey) = columns s
   /\ selectedRows (handleSort s columnKey) = selectedRows s)
  /\ (data (handleSearch s term) = data s
      /\ store (handleSearch s term) = store s
      /\ columns (handleSearch s term) = columns s
      /\ selectedRows (handleSearch s term) = selectedRows s).
Proof. repeat split; reflexivity. Qed.

(** A stale selection: index 0 is selected while it shows Alice, and after
    a sort by age the same index shows Bob. *)
Example stale_selection :
  let s := toggleRowSelection loaded 0 in
  selectedRows (handleSort s "age") = [0]
  /\ elems (filteredData s) !! 0 = Some 0
  /\ elems (filteredData (handleSort s "age")) !! 0 = Some 1.
Proof. repeat split; reflexivity. Qed.

(** ** Sort *)

Section SortFacts.

Variable cmp : loc -> loc -> Z.

Lemma insertBy_perm (x : loc) (l : list loc) :
  Permutation (x :: l) (insertBy cmp x l).
Proof.
  induction l as [|y l IH]; simpl; [apply Permutation_refl|].
  destruct (cmp x y <=? 0)%Z; [apply Permutation_refl|].
  eapply perm_trans; [apply perm_swap|]. now apply perm_skip.
Qed.

Lemma Array_sort_perm (l : list loc) : Permutation l (Array_sort cmp l).
Proof.
  induction l as [|x l IH]; simpl; [constructor|].
  eapply perm_trans; [apply perm_skip, IH | apply insertBy_perm].
Qed.

(** On elements where the comparator decides a total preorder [R], the
    result is sorted by [R]. *)
Variable P : loc -> Prop.
Variable R : loc -> loc -> Prop.
Hypothesis cmp_R :
  forall a b, P a -> P b -> ((cmp a b <=? 0)%Z = true <-> R a b).
Hypothesis R_total : forall a b, P a -> P b -> R a b \/ R b a.
Hypothesis R_trans :
  forall a b c, P a -> P b -> P c -> R a b -> R b c -> R a c.

Lemma insertBy_sorted (x : loc) (l : list loc) :
  P x -> Forall P l -> StronglySorted R l ->
  StronglySorted R (insertBy cmp x l).
Proof.
  intros Px Pl Hs. induction Hs as [|y l Hs IH Hy]; simpl.
  - repeat constructor.
  - inversion Pl as [|? ? Py Pl']; subst.
    destruct (cmp x y <=? 0)%Z eqn:E.
    + assert (Rxy : R x y) by now apply cmp_R.
      constructor; [now constructor|].
      constructor; [exact Rxy|].
      rewrite Forall_forall in *. intros z Hz.
      apply (R_trans x y z); auto.
    + assert (Ryx : R y x).
      { destruct (R_total x y Px Py) as [H|H]; [|exact H].
        apply cmp_R in H; auto. congruence. }
      constructor; [now apply IH|].
      eapply Permutation_Forall; [apply insertBy_perm|].
      now constructor.
Qed.

Lemma Array_sort_sorted (l : list loc) :
  Forall P l -> StronglySorted R (Array_sort cmp l).
Proof.
  induction 1 as [|x l Px Pl IH]; simpl; [constructor|].
  apply insertBy_sorted; auto.
  eapply Permutation_Forall; [apply Array_sort_perm | exact Pl].
Qed.

End SortFacts.

Section StringOrder.

Lemma ltb_asym (s t : string) :
  JsString.ltb s t = true -> JsString.ltb t s = false.
Proof.
  revert t. induction s as [|a s IH]; intros [|b t]; simpl; try easy.
  destruct (Nat.ltb_spec (nat_of_ascii a) (nat_of_ascii b));
    destruct (Nat.ltb_spec (nat_of_ascii b) (nat_of_ascii a));
    try easy; try lia.
  apply IH.
Qed.

Lemma ltb_negtrans (a b c : string) :
  JsString.ltb c a = true ->
  JsString.ltb c b = true \/ JsString.ltb b a = true.
Proof.
  revert a b. induction c as [|x c IH]; intros [|y a] [|z b]; simpl;
    try easy; try (intros _; now right); try (intros _; now left).
  destruct (Nat.ltb_spec (nat_of_ascii x) (nat_of_ascii y));
      destruct (Nat.ltb_spec (nat_of_ascii y) (nat_of_ascii x));
      destruct (Nat.ltb_spec (nat_of_ascii x) (nat_of_ascii z));
      destruct (Nat.ltb_spec (nat_of_ascii z) (nat_of_ascii x));
      destruct (Nat.ltb_spec (nat_of_ascii z) (nat_of_ascii y));
      destruct (Nat.ltb_spec (nat_of_ascii y) (nat_of_ascii z));
      intros Hlt; auto; try lia; try discriminate.
Qed.

End StringOrder.

Section CompareRows.

Variable h : Store.
Variable columnKey : string.
Variable d : Direction.

Let numeric (x : loc) : Prop := isNumber (cellOf h columnKey x).
Let textual (x : loc) : Prop := isString (cellOf h columnKey x).

Lemma compareRows_numeric (a b : loc) :
  numeric a -> numeric b ->
  ((compareRows h columnKey d a b <=? 0)%Z = true <-> InOrder h columnKey d a b).
Proof.
  unfold numeric, cellOf, InOrder, compareRows, js_gt, cellOf.
  intros [n ->] [m ->]. simpl.
  destruct d; destruct (Z.ltb_spec n m); destruct (Z.ltb_spec m n);
    simpl; split; intros; try reflexivity; try discriminate; lia.
Qed.

Lemma compareRows_textual (a b : loc) :
  textual a -> textual b ->
  ((compareRows h columnKey d a b <=? 0)%Z = true <-> InOrder h columnKey d a b).
Proof.
  unfold textual, cellOf, InOrder, compareRows, js_gt, cellOf.
  intros [t ->] [u ->]. simpl.
  destruct (JsString.ltb t u) eqn:E1; destruct (JsString.ltb u t) eqn:E2;
    try (apply ltb_asym in E1; congruence);
    destruct d; simpl; split; intros; try reflexivity; discriminate.
Qed.

Lemma InOrder_total_numeric (a b : loc) :
  numeric a -> numeric b ->
  InOrder h columnKey d a b \/ InOrder h columnKey d b a.
Proof.
  unfold numeric, InOrder, js_gt. intros [n ->] [m ->]. simpl.
  destruct d; destruct (Z.ltb_spec n m); destruct (Z.ltb_spec m n);
    auto; lia.
Qed.

Lemma InOrder_total_textual (a b : loc) :
  textual a -> textual b ->
  InOrder h columnKey d a b \/ InOrder h columnKey d b a.
Proof.
  unfold textual, InOrder, js_gt. intros [t ->] [u ->]. simpl.
  destruct (JsString.ltb t u) eqn:E1; destruct (JsString.ltb u t) eqn:E2;
    try (apply ltb_asym in E1; congruence); destruct d; auto.
Qed.

Lemma InOrder_trans_numeric (a b c : loc) :
  numeric a -> numeric b -> numeric c ->
  InOrder h columnKey d a b -> InOrder h columnKey d b c ->
  InOrder h columnKey d a c.
Proof.
  unfold numeric, InOrder, js_gt. intros [n ->] [m ->] [k ->]. simpl.
  destruct d; rewrite !Z.ltb_ge; lia.
Qed.

Lemma InOrder_trans_textual (a b c : loc) :
  textual a -> textual b -> textual c ->
  InOrder h columnKey d a b -> InOrder h columnKey d b c ->
  InOrder h columnKey d a c.
Proof.
  unfold textual, InOrder, js_gt. intros [t ->] [u ->] [v ->]. simpl.
  destruct d; intros H1 H2.
  - destruct (JsString.ltb v t) eqn:E; [|reflexivity].
    destruct (ltb_negtrans t u v E); congruence.
  - destruct (JsString.ltb t v) eqn:E; [|reflexivity].
    destruct (ltb_negtrans v u t E); congruence.
Qed.

(** On a column of numbers, or of strings, the sorted rows are in
    order. *)
Lemma Array_sort_InOrder (l : list loc) :
  Homogeneous h columnKey l ->
  StronglySorted (InOrder h columnKey d)
                 (Array_sort (compareRows h columnKey d) l).
Proof.
  intros [Hn|Ht].
  - apply (Array_sort_sorted _ numeric); auto.
    + apply compareRows_numeric.
    + apply InOrder_total_numeric.
    + apply InOrder_trans_numeric.
  - apply (Array_sort_sorted _ textual); auto.
    + apply compareRows_textual.
    + apply InOrder_total_textual.
    + apply InOrder_trans_textual.
Qed.

End CompareRows.

(** C1, as stated, fails on its last part: a click on the column that is
    already sorted descending does not stay descending, it sorts the
    projection ascending again.  Besides, on a column that mixes strings
    and numbers the comparator orders nothing across the two kinds: the
    first click leaves [b] before [a]. *)
Lemma third_click_sorts_ascending :
  (reachable sortedDescending
   /\ sortConfig sortedDescending = mkSortConfig (Some "age") desc
   /\ elems (filteredData sortedDescending) = [2; 0; 1]
   /\ sortConfig (handleSort sortedDescending "age") = mkSortConfig (Some "age") asc
   /\ direction (sortConfig (handleSort sortedDescending "age")) <> desc
   /\ elems (filteredData (handleSort sortedDescending "age")) = [1; 0; 2])
  /\ (reachable mixedLoaded
      /\ sortKey (sortConfig mixedLoaded) = None
      /\ sortConfig (handleSort mixedLoaded "v") = mkSortConfig (Some "v") asc
      /\ map (cellOf (store mixedLoaded) "v")
             (elems (filteredData (handleSort mixedLoaded "v")))
         = [VStr "b"; VNum 1; VStr "a"]
      /\ js_gt (VStr "b") (VStr "a") = true).
Proof.
  split.
  - split; [exists [Upload (Some peopleCsv); Sort "age"; Sort "age"]; reflexivity|].
    repeat split; try reflexivity. discriminate.
  - split; [exists [Upload (Some mixedJson)]; reflexivity|].
    repeat split; reflexivity.
Qed.

(** C1, amended.  A click on column C makes C the sorted column.  The
    direction is ascending when C was not the sorted column, descending
    when C was sorted ascending, and ascending again when C was sorted
    descending: the state is never unsorted again, and repeated clicks
    alternate between the two directions.  The new projection is the
    stable sort of the old one by C in that direction: a permutation of
    it, and in order whenever the column holds numbers only or strings
    only. *)
Theorem handleSort_toggles (s : State) (columnKey : string) :
  let s' := handleSort s columnKey in
  sortKey (sortConfig s') = Some columnKey
  /\ (sortKey (sortConfig s) <> Some columnKey ->
      direction (sortConfig s') = asc)
  /\ (sortKey (sortConfig s) = Some columnKey ->
      direction (sortConfig s) = asc -> direction (sortConfig s') = desc)
  /\ (sortKey (sortConfig s) = Some columnKey ->
      direction (sortConfig s) = desc -> direction (sortConfig s') = asc)
  /\ elems (filteredData s')
     = Array_sort (compareRows (store s) columnKey (direction (sortConfig s')))
                  (elems (filteredData s))
  /\ Permutation (elems (filteredData s)) (elems (filteredData s'))
  /\ (Homogeneous (store s) columnKey (elems (filteredData s)) ->
      StronglySorted (InOrder (store s') columnKey (direction (sortConfig s')))
                     (elems (filteredData s'))).
Proof.
  simpl. unfold nextDirection.
  split; [reflexivity|]. split.
  { intros Hk. destruct (sortKey (sortConfig s)) as [k|]; simpl; [|reflexivity].
    destruct (String.eqb_spec k columnKey); [congruence | reflexivity]. }
  split.
  { intros -> ->. simpl. now rewrite String.eqb_refl. }
  split.
  { intros -> ->. simpl. now rewrite String.eqb_refl. }
  split; [reflexivity|]. split; [apply Array_sort_perm|].
  apply Array_sort_InOrder.
Qed.

(** The scenario of the specification: the first click on [age] puts Bob
    (25) before Alice (30), the second one reverses the order. *)
Example sort_by_age :
  elems (filteredData (handleSort loaded "age")) = [1; 0; 2]
  /\ sortConfig (handleSort loaded "age") = mkSortConfig (Some "age") asc
  /\ elems (filteredData sortedDescending) = [2; 0; 1]
  /\ sortConfig (handleSort (handleSort loaded "age") "name")
     = mkSortConfig (Some "name") asc.
Proof. repeat split; reflexivity. Qed.

(** ** Cell edits *)

Section StoreFacts.

Lemma findIndex_Some (a : list loc) (t : loc) (i : nat) :
  findIndex a t = Some i -> a !! i = Some t.
Proof.
  revert i. induction a as [|x a IH]; intros i; simpl; [discriminate|].
  destruct (Nat.eqb_spec x t) as [->|Hne].
  - intros [= <-]. reflexivity.
  - destruct (findIndex a t) as [j|]; simpl; [|discriminate].
    intros [= <-]. simpl. now apply IH.
Qed.

Lemma findIndex_None (a : list loc) (t : loc) :
  findIndex a t = None <-> ~ In t a.
Proof.
  induction a as [|x a IH]; simpl; [tauto|].
  destruct (Nat.eqb_spec x t) as [->|Hne].
  - split; [discriminate | tauto].
  - destruct (findIndex a t) as [j|] eqn:E; simpl.
    + split; [discriminate|]. intros H. exfalso. apply H. right.
      apply list_elem_of_In, list_elem_of_lookup. exists j.
      now apply findIndex_Some.
    + split; [|reflexivity]. intros _ [H|H]; [congruence|]. now apply IH.
Qed.

Lemma row_get_set (r : Row) (k : string) (v : value) :
  row_get (row_set r k v) k = v.
Proof.
  induction r as [|[k' v'] r IH]; simpl.
  - now rewrite String.eqb_refl.
  - destruct (String.eqb k' k) eqn:E; simpl; rewrite E; auto.
Qed.

Lemma row_get_set_other (r : Row) (k k' : string) (v : value) :
  k' <> k -> row_get (row_set r k v) k' = row_get r k'.
Proof.
  intros Hne. induction r as [|[k0 v0] r IH]; simpl.
  - destruct (String.eqb_spec k k'); [congruence | reflexivity].
  - destruct (String.eqb_spec k0 k) as [->|Hk]; simpl.
    + destruct (String.eqb_spec k k'); [congruence | reflexivity].
    + destruct (String.eqb k0 k'); [reflexivity | exact IH].
Qed.

Lemma deref_alloc (h : Store) (r : Row) :
  deref (fst (alloc h r)) (snd (alloc h r)) = r.
Proof.
  unfold deref, alloc; cbn [fst snd].
  rewrite lookup_app_r by lia. now rewrite Nat.sub_diag.
Qed.

Lemma alloc_fresh (h : Store) (r : Row) : h !! snd (alloc h r) = None.
Proof. simpl. apply lookup_ge_None. lia. Qed.

Lemma alloc_keeps (h : Store) (r : Row) (l : loc) (x : Row) :
  h !! l = Some x -> fst (alloc h r) !! l = Some x.
Proof. intros H. simpl. now apply lookup_app_l_Some. Qed.

Lemma deref_alloc_old (h : Store) (r : Row) (l : loc) :
  l < length h -> deref (fst (alloc h r)) l = deref h l.
Proof. intros H. unfold deref; simpl. now rewrite lookup_app_l. Qed.

End StoreFacts.

(** The state after [handleCellEdit] on a valid projection index, by
    whether [findIndex] locates the projected row in the canonical
    array. *)
Lemma handleCellEdit_run (s : State) (r : nat) (c : string) (V : value)
    (p : loc) :
  elems (filteredData s) !! r = Some p ->
  handleCellEdit s r c V =
  Some
    (let h1 :=
       store s ++
       [match findIndex (elems (data s)) p with
        | Some i => row_set (spreadAt (store s) (elems (data s)) i) c V
        | None => row_set [] c V
        end] in
     {| store := h1 ++ [row_set (deref h1 p) c V];
        data :=
          match findIndex (elems (data s)) p with
          | Some i => arrayOf (<[i := length (store s)]> (elems (data s)))
          | None => mkArray (elems (data s)) (Some (length (store s)))
          end;
        columns := columns s;
        filteredData :=
          arrayOf (<[r := length h1]> (elems (filteredData s)));
        searchTerm := searchTerm s;
        sortConfig := sortConfig s;
        isUploading := isUploading s;
        selectedRows := selectedRows s;
        editingCell := None |}).
Proof.
  intros H. unfold handleCellEdit. rewrite H.
  destruct (findIndex (elems (data s)) p); reflexivity.
Qed.

(** C3. When the projected row at [r] is (by reference) a row of the
    canonical dataset, [handleCellEdit] locates it at an index [i] of the
    canonical array, puts a new object [o] there and a new object [o'] at
    [r] in the projection; column [c] reads [V] in both, the other columns
    read as in the old row, both objects are new in the store, and no
    object that existed before is changed. *)
Theorem handleCellEdit_writes_both (s : State) (r : nat) (c : string)
    (V : value) (p : loc) :
  elems (filteredData s) !! r = Some p ->
  In p (elems (data s)) ->
  exists s' i o o',
    handleCellEdit s r c V = Some s'
    /\ elems (data s) !! i = Some p
    /\ elems (data s') = <[i := o]> (elems (data s))
    /\ elems (filteredData s') = <[r := o']> (elems (filteredData s))
    /\ elems (data s') !! i = Some o
    /\ elems (filteredData s') !! r = Some o'
    /\ row_get (deref (store s') o) c = V
    /\ row_get (deref (store s') o') c = V
    /\ (forall k, k <> c ->
          row_get (deref (store s') o) k = row_get (deref (store s) p) k
          /\ row_get (deref (store s') o') k = row_get (deref (store s) p) k)
    /\ store s !! o = None /\ store s !! o' = None /\ o <> o'
    /\ (is_Some (store s !! p) -> o <> p /\ o' <> p)
    /\ (forall l x, store s !! l = Some x -> store s' !! l = Some x).
Proof.
  intros Hr Hin.
  destruct (findIndex (elems (data s)) p) as [i|] eqn:Hf;
    [|apply findIndex_None in Hf; contradiction].
  pose proof (findIndex_Some _ _ _ Hf) as Hi.
  rewrite (handleCellEdit_run s r c V p Hr), Hf.
  unfold spreadAt. rewrite Hi. cbv zeta.
  set (new1 := row_set (deref (store s) p) c V).
  set (h1 := store s ++ [new1]).
  eexists _, i, (length (store s)), (length h1).
  split; [reflexivity|]. cbn [store data filteredData elems arrayOf].
  assert (Hlen : length h1 = S (length (store s))).
  { unfold h1. rewrite length_app. simpl. lia. }
  assert (Hd1 : deref h1 p = deref (store s) p \/ deref h1 p = new1).
  { unfold deref, h1. destruct (Nat.lt_ge_cases p (length (store s))) as [Hlt|Hge].
    - left. now rewrite lookup_app_l.
    - rewrite lookup_app_r by lia. rewrite (lookup_ge_None_2 (store s)) by lia.
      destruct (p - length (store s)) as [|n] eqn:En; simpl; auto. }
  assert (Ho : deref (h1 ++ [row_set (deref h1 p) c V]) (length (store s)) = new1).
  { unfold deref. rewrite lookup_app_l by lia. unfold h1.
    rewrite lookup_app_r by lia. now rewrite Nat.sub_diag. }
  assert (Ho' : deref (h1 ++ [row_set (deref h1 p) c V]) (length h1)
                = row_set (deref h1 p) c V).
  { unfold deref. rewrite lookup_app_r by lia. now rewrite Nat.sub_diag. }
  assert (Hpo : store s !! p = None -> deref (store s) p = []).
  { intros E. unfold deref. now rewrite E. }
  repeat split.
  - exact Hi.
  - apply list_lookup_insert_eq. eapply lookup_lt_Some, Hi.
  - apply list_lookup_insert_eq. eapply lookup_lt_Some, Hr.
  - rewrite Ho. apply row_get_set.
  - rewrite Ho'. apply row_get_set.
  - rewrite Ho. unfold new1. now apply row_get_set_other.
  - rewrite Ho', row_get_set_other by assumption.
    destruct Hd1 as [->| ->]; [reflexivity|]. unfold new1.
    now apply row_get_set_other.
  - apply lookup_ge_None. lia.
  - apply lookup_ge_None. lia.
  - lia.
  - apply lookup_lt_is_Some in H. lia.
  - apply lookup_lt_is_Some in H. lia.
  - intros l x Hl. apply lookup_app_l_Some. unfold h1.
    now apply lookup_app_l_Some.
Qed.

(** Editing Alice's name in the state just loaded. *)
Lemma handleCellEdit_writes_both_loaded :
  exists s' i o o',
    handleCellEdit loaded 0 "name" (VStr "Al") = Some s'
    /\ elems (data loaded) !! i = Some 0
    /\ elems (data s') = <[i := o]> (elems (data loaded))
    /\ elems (filteredData s') = <[0 := o']> (elems (filteredData loaded))
    /\ elems (data s') !! i = Some o
    /\ elems (filteredData s') !! 0 = Some o'
    /\ row_get (deref (store s') o) "name" = VStr "Al"
    /\ row_get (deref (store s') o') "name" = VStr "Al"
    /\ (forall k, k <> "name" ->
          row_get (deref (store s') o) k = row_get (deref (store loaded) 0) k
          /\ row_get (deref (store s') o') k = row_get (deref (store loaded) 0) k)
    /\ store loaded !! o = None /\ store loaded !! o' = None /\ o <> o'
    /\ (is_Some (store loaded !! 0) -> o <> 0 /\ o' <> 0)
    /\ (forall l x, store loaded !! l = Some x -> store s' !! l = Some x).
Proof.
  apply (handleCellEdit_writes_both loaded 0 "name" (VStr "Al") 0).
  - reflexivity.
  - simpl. auto.
Defined.



(** After that second edit the canonical row still reads [A] while the
    projected row reads [Al]. *)
Example second_edit_not_propagated :
  exists s',
    handleCellEdit editedOnce 0 "name" (VStr "Al") = Some s'
    /\ option_map (fun l => row_get (deref (store s') l) "name")
                  (elems (data s') !! 0) = Some (VStr "A")
    /\ option_map (fun l => row_get (deref (store s') l) "name")
                  (elems (filteredData s') !! 0) = Some (VStr "Al").
Proof. eexists. repeat split; reflexivity. Qed.

(** C10. The input's change event is [CommitEdit]; each one, on a row
    that is shown, runs [handleCellEdit], and the state it leaves has no
    cell in edit mode, as after a blur or Enter. *)
Theorem commitEdit_leaves_edit_mode (s : State) (r : nat) (c : string)
    (V : value) :
  r < length (elems (filteredData s)) ->
  exists s',
    step s (CommitEdit r c V) = Some s'
    /\ handleCellEdit s r c V = Some s'
    /\ editingCell s' = None
    /\ editingCell s' = editingCell (endEdit s).
Proof.
  intros Hr. destruct (lookup_lt_is_Some_2 _ _ Hr) as [p Hp].
  simpl. rewrite (handleCellEdit_run s r c V p Hp).
  eexists. repeat split; reflexivity.
Qed.

(** One keystroke in the cell that was just put in edit mode. *)
Lemma commitEdit_leaves_edit_mode_keystroke :
  exists s',
    step (beginEdit loaded 1 "name") (CommitEdit 1 "name" (VStr "Bobb")) = Some s'
    /\ handleCellEdit (beginEdit loaded 1 "name") 1 "name" (VStr "Bobb") = Some s'
    /\ editingCell s' = None
    /\ editingCell s' = editingCell (endEdit (beginEdit loaded 1 "name")).
Proof.
  apply (commitEdit_leaves_edit_mode (beginEdit loaded 1 "name") 1 "name"
           (VStr "Bobb")).
  simpl. lia.
Defined.

(** ** Bulk delete *)

Lemma includes_ref_spec (s : State) (l : loc) :
  includes_ref (rowsToDelete s) l = true <-> SelectedRow s l.
Proof.
  unfold includes_ref, rowsToDelete, SelectedRow. rewrite existsb_exists. split.
  - intros ([x|] & Hin & Hx); [|discriminate].
    apply Nat.eqb_eq in Hx as ->. apply in_map_iff in Hin as (i & Hi & Hin).
    now exists i.
  - intros (i & Hin & Hi). exists (Some l). split.
    + apply in_map_iff. now exists i.
    + apply Nat.eqb_refl.
Qed.




Example delete_alice_and_carol :
  selectedRows selectedTwo = [0; 2]
  /\ elems (data (deleteSelectedRows selectedTwo)) = [1]
  /\ deref (store (deleteSelectedRows selectedTwo)) 1 = bob.
Proof. repeat split; reflexivity. Qed.

(** ** The projection after a change of the dataset *)



(** ** Export *)

(** C6, as stated, fails.  [exportData] hands the projected records to the
    serializer and nothing else, so the schema does not reach the file:
    with a three-row dataset filtered down to no row the exported text is
    empty, without a header row, although the schema has the keys [name]
    and [age]; and no header computed from the exported records can be
    the schema's keys in every reachable state. *)
Lemma export_header_not_from_schema :
  (reachable searchedNothing
   /\ length (elems (data searchedNothing)) = 3
   /\ map key (columns searchedNothing) = ["name"; "age"]
   /\ exportedRecords searchedNothing = []
   /\ Papa.unparseLines (exportedRecords searchedNothing) = []
   /\ blobText (exportData searchedNothing) = "")
  /\ ~ (exists header : list (list (string * value)) -> list string,
          forall s, reachable s ->
                    header (exportedRecords s) = map key (columns s)).
Proof.
  split.
  - split; [exists [Upload (Some peopleCsv); Search "zzz"]; reflexivity|].
    repeat split; reflexivity.
  - intros [header H].
    assert (H1 : header (exportedRecords searchedNothing) = ["name"; "age"]).
    { apply H. exists [Upload (Some peopleCsv); Search "zzz"]; reflexivity. }
    assert (H2 : header (exportedRecords citySearchedNothing) = ["city"]).
    { apply H. exists [Upload (Some cityJson); Search "zzz"]; reflexivity. }
    change (exportedRecords searchedNothing) with (@nil (list (string * value))) in H1.
    change (exportedRecords citySearchedNothing) with (@nil (list (string * value))) in H2.
    congruence.
Qed.

Lemma unparseLines_cons (first : list (string * value))
    (others : list (list (string * value))) :
  Object_keys first <> [] ->
  Papa.unparseLines (first :: others) =
  map (fun k => Papa.safe (VStr k)) (Object_keys first)
  :: map (fun r => map (fun k => Papa.safe (row_get r k)) (Object_keys first))
         (first :: others).
Proof.
  intros Hne. unfold Papa.unparseLines.
  destruct (Object_keys first); [contradiction | reflexivity].
Qed.

(** C6, amended.  For every state, [exportData] serializes the projection
    (the records behind [filteredData], not those behind [data]) into a
    download named [data-export.csv].  When the projection is empty the
    exported text is empty: no line, no header.  When it is not, the
    header is made of the keys of its first row (if that row has any) and
    one line follows per projected row; so when the keys of the first row
    are the keys of the schema, of which there is at least one, the first
    line is the schema's keys and each following line holds a projected
    row's cells in schema order. *)
Theorem exportData_projection (s : State) :
  download (exportData s) = "data-export.csv"
  /\ blobText (exportData s)
     = Papa.unparse (map (deref (store s)) (elems (filteredData s)))
  /\ (elems (filteredData s) = [] ->
      Papa.unparseLines (exportedRecords s) = []
      /\ blobText (exportData s) = "")
  /\ (forall p rest,
        elems (filteredData s) = p :: rest ->
        Object_keys (deref (store s) p) <> [] ->
        exists body,
          Papa.unparseLines (exportedRecords s)
          = map (fun k => Papa.safe (VStr k)) (Object_keys (deref (store s) p))
            :: body
          /\ length body = length (elems (filteredData s)))
  /\ (forall p rest,
        elems (filteredData s) = p :: rest ->
        Object_keys (deref (store s) p) = map key (columns s) ->
        columns s <> [] ->
        exists body,
          Papa.unparseLines (exportedRecords s) = schemaHeader s :: body
          /\ length body = length (elems (filteredData s))
          /\ body = map (fun l => map (fun c => Papa.safe (cellOf (store s) (key c) l))
                                      (columns s))
                        (elems (filteredData s))).
Proof.
  split; [reflexivity|]. split; [reflexivity|]. split; [|split].
  - intros Hp. unfold exportData, exportedRecords. rewrite Hp. split; reflexivity.
  - intros p rest Hp Hkeys. unfold exportedRecords. rewrite Hp.
    change (map (deref (store s)) (p :: rest))
      with (deref (store s) p :: map (deref (store s)) rest).
    rewrite (unparseLines_cons _ _ Hkeys).
    eexists. split; [reflexivity|]. simpl. now rewrite !length_map.
  - intros p rest Hp Hkeys Hcols.
    eexists. split; [|split; [|reflexivity]]; [|now rewrite length_map].
    unfold exportedRecords. rewrite Hp.
    change (map (deref (store s)) (p :: rest))
      with (deref (store s) p :: map (deref (store s)) rest).
    rewrite unparseLines_cons.
    + rewrite Hkeys. unfold schemaHeader. rewrite map_map. f_equal.
      change (deref (store s) p :: map (deref (store s)) rest)
        with (map (deref (store s)) (p :: rest)).
      rewrite map_map. apply map_ext. intros l. now rewrite map_map.
    + rewrite Hkeys. destruct (columns s); [contradiction | discriminate].
Qed.

(** The three-row dataset filtered down to Alice: the header and one data
    row. *)
Lemma exportData_projection_one_of_three :
  length (elems (data searchedAli)) = 3
  /\ download (exportData searchedAli) = "data-export.csv"
  /\ exists body,
       Papa.unparseLines (exportedRecords searchedAli) = schemaHeader searchedAli :: body
       /\ length body = 1
       /\ body = map (fun l => map (fun c => Papa.safe (cellOf (store searchedAli) (key c) l))
                                   (columns searchedAli))
                     (elems (filteredData searchedAli)).
Proof.
  destruct (exportData_projection searchedAli) as (Hname & _ & _ & _ & Hschema).
  split; [reflexivity|]. split; [exact Hname|].
  apply (Hschema 0 []).
  - reflexivity.
  - reflexivity.
  - simpl. discriminate.
Defined.

Example export_one_of_three :
  length (elems (data searchedAli)) = 3
  /\ Papa.unparseLines (exportedRecords searchedAli)
     = [["name"; "age"]; ["Alice"; "30"]]
  /\ blobText (exportData searchedAli)
     = String.concat Papa.newline ["name,age"; "Alice,30"].
Proof. repeat split; reflexivity. Qed.

(** ** Upload *)

(** The two logging paths.  When [Papa.parse] calls [error], or
    [JSON.parse] throws, the handler writes the error to the console and
    sets nothing but [isUploading]: the canonical dataset, the schema and
    the projection are those of before the upload, so where they were
    empty they stay empty and no row of the file is shown.  For invalid
    JSON this is what C8 states. *)
Theorem handleFileUpload_parse_error (s : State) (f : File) (error : string) :
  parseFails f error ->
  let s' := fst (handleFileUpload s (Some f)) in
  let log := snd (handleFileUpload s (Some f)) in
  (exists message, log = [(message, error)])
  /\ data s' = data s
  /\ columns s' = columns s
  /\ filteredData s' = filteredData s
  /\ store s' = store s
  /\ isUploading s' = false
  /\ (elems (data s) = [] -> columns s = [] -> elems (filteredData s) = [] ->
      elems (data s') = [] /\ columns s' = [] /\ elems (filteredData s') = []).
Proof.
  intros [[Hcsv Hp]|(Hcsv & Hjson & Hp)]; unfold handleFileUpload;
    rewrite Hcsv, ?Hjson, Hp; cbv zeta; cbn [fst snd];
    (split; [eexists; reflexivity|]); repeat split; assumption.
Qed.

(** A file of type JSON on which [JSON.parse] throws, uploaded in the
    initial state. *)
Lemma handleFileUpload_parse_error_broken_json :
  let s' := fst (handleFileUpload initialState (Some brokenJson)) in
  let log := snd (handleFileUpload initialState (Some brokenJson)) in
  (exists message, log = [(message, "Unexpected end of JSON input")])
  /\ data s' = data initialState
  /\ columns s' = columns initialState
  /\ filteredData s' = filteredData initialState
  /\ store s' = store initialState
  /\ isUploading s' = false
  /\ (elems (data initialState) = [] -> columns initialState = [] ->
      elems (filteredData initialState) = [] ->
      elems (data s') = [] /\ columns s' = [] /\ elems (filteredData s') = []).
Proof.
  apply (handleFileUpload_parse_error initialState brokenJson
           "Unexpected end of JSON input").
  right. repeat split; reflexivity.
Defined.

(** C8, where the code departs from it.  Malformed CSV content does not
    come through [error]: Papa goes through the content and calls
    [complete] with the rows it made of it and a non-empty
    [results.errors], which the handler never reads.  So for a CSV file
    whose content is malformed and yields at least one row, nothing is
    written to the console, and the rows made of the malformed content are
    loaded and shown: the dataset and the projection are not empty, and
    the schema is that of the first such row. *)
Theorem malformed_csv_is_loaded (s : State) (f : File)
    (first : list (string * value)) (others : list (list (string * value)))
    (errors : list string) :
  isCsv f = true ->
  papaParse f = PapaComplete (first :: others) errors ->
  errors <> [] ->
  let s' := fst (handleFileUpload s (Some f)) in
  snd (handleFileUpload s (Some f)) = []
  /\ exportedRecords s' = first :: others
  /\ elems (data s') <> []
  /\ elems (filteredData s') <> []
  /\ columns s' = map csvColumn (Object_keys first).
Proof.
  intros Hcsv Hp _. unfold handleFileUpload. rewrite Hcsv, Hp.
  cbv zeta. cbn [fst snd]. split; [reflexivity|].
  split.
  - unfold exportedRecords, loadRows, allocAll.
    cbn [store filteredData elems arrayOf].
    assert (H : forall (rows h : list (list (string * value))),
               map (deref (h ++ rows)) (seq (length h) (length rows)) = rows).
    { induction rows as [|x rows IH]; intros h; simpl; [reflexivity|]. f_equal.
      - unfold deref. rewrite lookup_app_r by lia. now rewrite Nat.sub_diag.
      - specialize (IH (h ++ [x])). rewrite <- app_assoc in IH. simpl in IH.
        rewrite length_app in IH. simpl in IH.
        now rewrite Nat.add_1_r in IH. }
    apply (H (first :: others) (store s)).
  - repeat split; discriminate.
Qed.

(** The file [name,age / Alice,30 / Bob] uploaded in the initial state. *)
Lemma malformed_csv_is_loaded_short_record :
  let s' := fst (handleFileUpload initialState (Some malformedCsv)) in
  snd (handleFileUpload initialState (Some malformedCsv)) = []
  /\ exportedRecords s' = alice :: [shortBob]
  /\ elems (data s') <> []
  /\ elems (filteredData s') <> []
  /\ columns s' = map csvColumn (Object_keys alice).
Proof.
  apply (malformed_csv_is_loaded initialState malformedCsv alice [shortBob]
           ["Too few fields: expected 2 fields but parsed 1"]).
  - reflexivity.
  - reflexivity.
  - discriminate.
Defined.

Example upload_outcomes :
  snd (handleFileUpload initialState (Some brokenJson))
  = [("JSON parsing error:", "Unexpected end of JSON input")]
  /\ fst (handleFileUpload initialState (Some brokenJson)) = initialState
  /\ elems (data loaded) = [0; 1; 2]
  /\ map key (columns loaded) = ["name"; "age"]
  /\ map key (columns cityLoaded) = ["city"]
  /\ elems (data cityLoaded) = [0].
Proof. repeat split; reflexivity. Qed.

(** ** Reachable states hold no dangling reference *)

Section WellFormed.

Lemma allocated_grow (h h' : list (list (string * value))) (l : list nat) :
  length h <= length h' ->
  Forall (fun x => x < length h) l -> Forall (fun x => x < length h') l.
Proof. intros Hle. apply List.Forall_impl. intros x Hx. lia. Qed.

Lemma allocated_filter (h : list (list (string * value))) (f : nat -> bool)
    (l : list nat) :
  Forall (fun x => x < length h) l ->
  Forall (fun x => x < length h) (List.filter f l).
Proof.
  rewrite !List.Forall_forall. intros H x Hx.
  apply filter_In in Hx as [Hx _]. now apply H.
Qed.

Lemma loadRows_wellFormed (s : State) (mk : string -> Column)
    (rows : list (list (string * value))) :
  wellFormed s -> wellFormed (loadRows s mk rows).
Proof.
  intros Hwf. destruct rows as [|first rows]; [exact Hwf|].
  unfold wellFormed, allocated, loadRows, allocAll; cbn [store data filteredData elems arrayOf].
  assert (H : Forall (fun l => l < length (store s ++ first :: rows))
                     (seq (length (store s)) (length (first :: rows)))).
  { apply List.Forall_forall. intros x Hx. apply in_seq in Hx.
    rewrite length_app. lia. }
  split; exact H.
Qed.

Lemma handleFileUpload_wellFormed (s : State) (file : option File) :
  wellFormed s -> wellFormed (fst (handleFileUpload s file)).
Proof.
  intros Hwf. unfold handleFileUpload.
  destruct file as [f|]; [|exact Hwf].
  destruct (isCsv f).
  - destruct (papaParse f); [apply loadRows_wellFormed|]; exact Hwf.
  - destruct (isJson f); [|exact Hwf].
    destruct (jsonParse f) as [[rows|r]|]; [| |exact Hwf];
      now apply loadRows_wellFormed.
Qed.

Lemma handleCellEdit_wellFormed (s s' : State) (r : nat) (c : string)
    (V : value) :
  wellFormed s -> handleCellEdit s r c V = Some s' -> wellFormed s'.
Proof.
  intros [Hd Hf] Hrun.
  destruct (elems (filteredData s) !! r) as [p|] eqn:Hp;
    [|unfold handleCellEdit in Hrun; rewrite Hp in Hrun; discriminate].
  rewrite (handleCellEdit_run s r c V p Hp) in Hrun.
  injection Hrun as <-. cbv zeta. unfold wellFormed, allocated in *.
  cbn [store data filteredData].
  split.
  - destruct (findIndex (elems (data s)) p); cbn [elems arrayOf].
    + apply Forall_insert.
      * eapply allocated_grow; [|exact Hd]. rewrite !length_app. lia.
      * rewrite !length_app. simpl. lia.
    + eapply allocated_grow; [|exact Hd]. rewrite !length_app. lia.
  - cbn [elems arrayOf]. apply Forall_insert.
    + eapply allocated_grow; [|exact Hf]. rewrite !length_app. lia.
    + rewrite !length_app. simpl. lia.
Qed.

Lemma step_wellFormed (s s' : State) (e : Event) :
  wellFormed s -> step s e = Some s' -> wellFormed s'.
Proof.
  intros Hwf. destruct e; simpl;
    try (intros [= <-]; exact Hwf);
    try (intros [= <-]; destruct Hwf as [Hd Hf]).
  - apply handleFileUpload_wellFormed. now split.
  - unfold handleSearch, wellFormed; cbn [store data filteredData].
    split; [exact Hd|].
    destruct (String.eqb (JsString.trim term) ""); [exact Hd|].
    now apply allocated_filter.
  - split; [exact Hd|]. unfold allocated; simpl.
    eapply Permutation_Forall; [apply Array_sort_perm | exact Hf].
  - apply handleCellEdit_wellFormed, Hwf.
  - assert (H : Forall (fun l => l < length (store s ++ [blankRow (columns s)]))
                       (elems (data s) ++ [length (store s)])).
    { apply Forall_app. split.
      - eapply allocated_grow; [|exact Hd]. rewrite length_app. lia.
      - repeat constructor. rewrite length_app. simpl. lia. }
    split; exact H.
  - split; now apply allocated_filter.
  - split; constructor.
Qed.

Lemma run_wellFormed (es : list Event) (s s' : State) :
  wellFormed s -> run s es = Some s' -> wellFormed s'.
Proof.
  revert s. induction es as [|e es IH]; intros s Hwf; simpl.
  - now intros [= <-].
  - destruct (step s e) as [s1|] eqn:E; [|discriminate].
    apply IH. eapply step_wellFormed; eauto.
Qed.

Lemma reachable_wellFormed (s : State) : reachable s -> wellFormed s.
Proof.
  intros [es Hes]. apply (run_wellFormed es initialState); [|exact Hes].
  split; constructor.
Qed.

End WellFormed.

Example scenario_states_reachable :
  reachable loaded /\ reachable editedOnce /\ reachable selectedTwo
  /\ wellFormed editedOnce.
Proof.
  assert (H : reachable editedOnce).
  { exists [Upload (Some peopleCsv); CommitEdit 0 "name" (VStr "A")]. reflexivity. }
  repeat split.
  - exists [Upload (Some peopleCsv)]. reflexivity.
  - exact H.
  - exists [Upload (Some peopleCsv); Toggle 0; Toggle 2]. reflexivity.
  - apply reachable_wellFormed, H.
  - apply reachable_wellFormed, H.
Qed.


(** * Further properties of the handlers *)

(** ** Selection *)

Section SelectionFacts.

Lemma existsb_eqb_In (i : nat) (l : list nat) :
  existsb (Nat.eqb i) l = true <-> In i l.
Proof.
  rewrite existsb_exists. split.
  - intros (x & Hx & E). apply Nat.eqb_eq in E. now subst.
  - intros H. exists i. split; [exact H | apply Nat.eqb_refl].
Qed.

Lemma toggle_NoDup (s : State) (rowIndex : nat) :
  List.NoDup (selectedRows s) -> List.NoDup (selectedRows (toggleRowSelection s rowIndex)).
Proof.
  intros Hnd. simpl.
  destruct (existsb (Nat.eqb rowIndex) (selectedRows s)) eqn:E.
  - now apply List.NoDup_filter.
  - apply List.NoDup_app; [exact Hnd | repeat constructor; simpl; tauto |].
    intros x Hx [->|[]]. apply existsb_eqb_In in Hx. congruence.
Qed.

Lemma step_selection_NoDup (s s' : State) (e : Event) :
  List.NoDup (selectedRows s) -> step s e = Some s' -> List.NoDup (selectedRows s').
Proof.
  intros Hnd. destruct e; simpl; try (intros [= <-]; simpl; assumption).
  - intros [= <-]. unfold handleFileUpload.
    destruct file as [f|]; [|exact Hnd].
    destruct (isCsv f).
    + destruct (papaParse f) as [[|? ?] ?|]; exact Hnd.
    + destruct (isJson f); [|exact Hnd].
      destruct (jsonParse f) as [[[|? ?]|?]|]; exact Hnd.
  - intros [= <-]. now apply toggle_NoDup.
  - intros [= <-]. simpl. destruct checked; [apply List.seq_NoDup | constructor].
  - unfold handleCellEdit.
    destruct (elems (filteredData s) !! rowIndex); [|discriminate].
    destruct (findIndex (elems (data s)) n); intros [= <-]; exact Hnd.
  - intros [= <-]. constructor.
  - intros [= <-]. constructor.
Qed.

(** The list that stands for the [Set] never holds an index twice. *)
Lemma reachable_selection_NoDup (s : State) :
  reachable s -> List.NoDup (selectedRows s).
Proof.
  intros [es Hes].
  assert (H : forall es s0, List.NoDup (selectedRows s0) ->
                            run s0 es = Some s -> List.NoDup (selectedRows s)).
  { clear. induction es as [|e es IH]; intros s0 Hnd; simpl.
    - now intros [= <-].
    - destruct (step s0 e) as [s1|] eqn:E; [|discriminate].
      apply IH. eapply step_selection_NoDup; eauto. }
  apply (H es initialState); [constructor | exact Hes].
Qed.

Lemma filter_none (f : nat -> bool) (l : list nat) :
  (forall x, In x l -> f x = false) -> List.filter f l = [].
Proof.
  induction l as [|x l IH]; intros H; simpl; [reflexivity|].
  rewrite (H x) by now left. apply IH. intros y Hy. apply H. now right.
Qed.

Lemma filter_all (f : nat -> bool) (l : list nat) :
  (forall x, In x l -> f x = true) -> List.filter f l = l.
Proof.
  induction l as [|x l IH]; intros H; simpl; [reflexivity|].
  rewrite (H x) by now left. f_equal. apply IH. intros y Hy. apply H. now right.
Qed.

End SelectionFacts.

(** X1. [toggleRowSelection] flips the membership of [rowIndex] in the
    selection and of no other index: afterwards an index is selected when
    it is [rowIndex] and was not selected, or is another index and was
    selected. *)
Theorem toggleRowSelection_flips (s : State) (rowIndex i : nat) :
  In i (selectedRows (toggleRowSelection s rowIndex))
  <-> (i = rowIndex /\ ~ In rowIndex (selectedRows s))
      \/ (i <> rowIndex /\ In i (selectedRows s)).
Proof.
  simpl. destruct (existsb (Nat.eqb rowIndex) (selectedRows s)) eqn:E.
  - apply existsb_eqb_In in E. rewrite filter_In, negb_true_iff, Nat.eqb_neq.
    split.
    + intros [H1 H2]. right. now split.
    + intros [[-> H]|[H1 H2]]; [contradiction | now split].
  - assert (Hn : ~ In rowIndex (selectedRows s)).
    { intros H. apply existsb_eqb_In in H. congruence. }
    rewrite in_app_iff. simpl. split.
    + intros [H|[<-|[]]]; [right | left; now split].
      split; [|exact H]. intros ->. contradiction.
    + intros [[-> _]|[_ H]]; [right; now left | now left].
Qed.

(** X2. In a reachable state whose selected indices are all indices of
    the projection, the header check box is checked exactly when the
    projection is not empty and every one of its rows is selected. *)
Theorem headerChecked_all_selected (s : State) :
  reachable s ->
  Forall (fun i => i < length (elems (filteredData s))) (selectedRows s) ->
  headerChecked s = true
  <-> (elems (filteredData s) <> []
       /\ forall i, i < length (elems (filteredData s)) -> In i (selectedRows s)).
Proof.
  intros Hr Hvalid. apply reachable_selection_NoDup in Hr.
  rewrite List.Forall_forall in Hvalid.
  set (n := length (elems (filteredData s))) in *.
  assert (Hsub : incl (selectedRows s) (seq 0 n)).
  { intros i Hi. apply in_seq. specialize (Hvalid i Hi). lia. }
  unfold headerChecked. fold n.
  rewrite andb_true_iff, Nat.eqb_eq, Nat.ltb_lt. split.
  - intros [Hlen Hpos]. split.
    + intros E. unfold n in Hpos. rewrite E in Hpos. simpl in Hpos. lia.
    + intros i Hi.
      apply (NoDup_length_incl Hr (l' := seq 0 n)); [|exact Hsub|].
      * rewrite length_seq. lia.
      * apply in_seq. lia.
  - intros [Hne Hall]. split.
    + apply Nat.le_antisymm.
      * rewrite <- (length_seq n 0). now apply NoDup_incl_length.
      * rewrite <- (length_seq n 0) at 1.
        apply NoDup_incl_length; [apply List.seq_NoDup|].
        intros i Hi. apply in_seq in Hi. apply Hall. lia.
    + unfold n. destruct (elems (filteredData s)); [contradiction | simpl; lia].
Qed.

Lemma headerChecked_all_selected_two :
  headerChecked selectedTwo = true
  <-> (elems (filteredData selectedTwo) <> []
       /\ forall i, i < length (elems (filteredData selectedTwo)) ->
                    In i (selectedRows selectedTwo)).
Proof.
  apply (headerChecked_all_selected selectedTwo).
  - exists [Upload (Some peopleCsv); Toggle 0; Toggle 2]. reflexivity.
  - simpl. repeat constructor.
Defined.

(** X3. When every row of the canonical dataset is shown in the
    projection, selecting all and deleting empties the dataset, the
    projection and the selection; the column schema stays. *)
Theorem selectAll_delete_empties (s : State) :
  (forall l, In l (elems (data s)) -> In l (elems (filteredData s))) ->
  let s' := deleteSelectedRows (selectAll s true) in
  elems (data s') = []
  /\ elems (filteredData s') = []
  /\ selectedRows s' = []
  /\ columns s' = columns s.
Proof.
  intros Hall s'.
  assert (H : elems (data s') = []).
  { simpl. apply filter_none. intros l Hl. apply negb_false_iff.
    apply includes_ref_spec.
    apply Hall, list_elem_of_In, list_elem_of_lookup in Hl as [i Hi].
    exists i. split; [|exact Hi]. simpl. apply in_seq.
    apply lookup_lt_Some in Hi. lia. }
  repeat split; try exact H; reflexivity.
Qed.

Lemma selectAll_delete_empties_loaded :
  let s' := deleteSelectedRows (selectAll loaded true) in
  elems (data s') = []
  /\ elems (filteredData s') = []
  /\ selectedRows s' = []
  /\ columns s' = columns loaded.
Proof.
  apply (selectAll_delete_empties loaded). simpl. tauto.
Defined.

(** X4. When no row shown at a selected index is a row of the canonical
    array (the selection is empty, or points at copies made by an edit, or
    beyond the projection), [deleteSelectedRows] removes nothing: the
    canonical array keeps all its rows, and the projection becomes that
    whole array. *)
Theorem deleteSelectedRows_detached (s : State) :
  (forall l, SelectedRow s l -> ~ In l (elems (data s))) ->
  let s' := deleteSelectedRows s in
  elems (data s') = elems (data s)
  /\ elems (filteredData s') = elems (data s)
  /\ selectedRows s' = [].
Proof.
  intros Hdet s'.
  assert (H : elems (data s') = elems (data s)).
  { simpl. apply filter_all. intros l Hl. apply negb_true_iff.
    destruct (includes_ref (rowsToDelete s) l) eqn:E; [|reflexivity].
    apply includes_ref_spec in E. now apply Hdet in E. }
  repeat split; exact H.
Qed.

(** The row edited in [editedOnce], selected and deleted: it stays. *)
Lemma deleteSelectedRows_detached_edited :
  let s' := deleteSelectedRows (toggleRowSelection editedOnce 0) in
  elems (data s') = elems (data (toggleRowSelection editedOnce 0))
  /\ elems (filteredData s') = elems (data (toggleRowSelection editedOnce 0))
  /\ selectedRows s' = [].
Proof.
  apply (deleteSelectedRows_detached (toggleRowSelection editedOnce 0)).
  intros l (i & Hi & Hl). simpl in Hi. destruct Hi as [<-|[]].
  simpl in Hl. injection Hl as <-. simpl.
  intros [H|[H|[H|H]]]; try discriminate; exact H.
Defined.

(** ** Upload *)

Section UploadFacts.

Lemma deref_allocAll (h rows : list (list (string * value))) :
  map (deref (h ++ rows)) (seq (length h) (length rows)) = rows.
Proof.
  revert h. induction rows as [|r rows IH]; intros h; simpl; [reflexivity|].
  f_equal.
  - unfold deref. rewrite lookup_app_r by lia. now rewrite Nat.sub_diag.
  - specialize (IH (h ++ [r])). rewrite <- app_assoc in IH. simpl in IH.
    rewrite length_app in IH. simpl in IH.
    now rewrite Nat.add_1_r in IH.
Qed.

Lemma row_get_absent (r : list (string * value)) (k : string) :
  ~ In k (Object_keys r) -> row_get r k = VUndefined.
Proof.
  induction r as [|[k' v] r IH]; simpl; [reflexivity|].
  intros H. destruct (String.eqb_spec k' k) as [->|Hne]; [tauto|].
  apply IH. tauto.
Qed.

Lemma row_set_keys_absent (r : list (string * value)) (k : string) (v : value) :
  ~ In k (Object_keys r) -> Object_keys (row_set r k v) = Object_keys r ++ [k].
Proof.
  induction r as [|[k' v'] r IH]; simpl; [reflexivity|].
  intros H. destruct (String.eqb_spec k' k) as [->|Hne]; [tauto|].
  simpl. f_equal. apply IH. tauto.
Qed.

Lemma row_set_keys_present (r : list (string * value)) (k : string) (v : value) :
  In k (Object_keys r) -> Object_keys (row_set r k v) = Object_keys r.
Proof.
  induction r as [|[k' v'] r IH]; simpl; [tauto|].
  intros H. destruct (String.eqb_spec k' k) as [->|Hne]; [reflexivity|].
  simpl. f_equal. apply IH. destruct H; [contradiction | assumption].
Qed.

End UploadFacts.

(** X5. A file that parses into at least one row loads: every parsed row
    becomes a new object of the store, the canonical array holds them in
    file order and the projection is that same array, so the rows shown
    are exactly the parsed rows; the schema is made from the keys of the
    first row alone; objects that existed keep their content, nothing is
    logged, and the search term, the sort configuration, the selection and
    the edit cursor are those of before. *)
Theorem handleFileUpload_loads (s : State) (f : File)
    (mk : string -> Column) (first : list (string * value))
    (others : list (list (string * value))) :
  parsedRows f = Some (mk, first :: others) ->
  let s' := fst (handleFileUpload s (Some f)) in
  map (deref (store s')) (elems (data s')) = first :: others
  /\ filteredData s' = data s'
  /\ exportedRecords s' = first :: others
  /\ columns s' = map mk (Object_keys first)
  /\ List.NoDup (elems (data s'))
  /\ (forall l, In l (elems (data s')) -> store s !! l = None)
  /\ (forall l x, store s !! l = Some x -> store s' !! l = Some x)
  /\ snd (handleFileUpload s (Some f)) = []
  /\ isUploading s' = false
  /\ searchTerm s' = searchTerm s
  /\ sortConfig s' = sortConfig s
  /\ selectedRows s' = selectedRows s
  /\ editingCell s' = editingCell s.
Proof.
  intros Hp.
  assert (E : handleFileUpload s (Some f) = (loadRows s mk (first :: others), [])).
  { unfold parsedRows in Hp. unfold handleFileUpload.
    destruct (isCsv f).
    - destruct (papaParse f); [|discriminate]. now inversion Hp; subst.
    - destruct (isJson f); [|discriminate].
      destruct (jsonParse f) as [[rows|r]|]; [| |discriminate];
        now inversion Hp; subst. }
  rewrite E. cbv zeta. cbn [fst snd].
  unfold loadRows, allocAll, exportedRecords.
  cbn [store data filteredData elems arrayOf columns isUploading searchTerm
       sortConfig selectedRows editingCell].
  pose proof (deref_allocAll (store s) (first :: others)) as Hd.
  repeat split; try exact Hd.
  - apply List.seq_NoDup.
  - intros l Hl. apply in_seq in Hl. apply lookup_ge_None. lia.
  - intros l x Hl. now apply lookup_app_l_Some.
Qed.

Lemma handleFileUpload_loads_people :
  let s' := fst (handleFileUpload initialState (Some peopleCsv)) in
  map (deref (store s')) (elems (data s')) = alice :: [bob; carol]
  /\ filteredData s' = data s'
  /\ exportedRecords s' = alice :: [bob; carol]
  /\ columns s' = map csvColumn (Object_keys alice)
  /\ List.NoDup (elems (data s'))
  /\ (forall l, In l (elems (data s')) -> store initialState !! l = None)
  /\ (forall l x, store initialState !! l = Some x -> store s' !! l = Some x)
  /\ snd (handleFileUpload initialState (Some peopleCsv)) = []
  /\ isUploading s' = false
  /\ searchTerm s' = searchTerm initialState
  /\ sortConfig s' = sortConfig initialState
  /\ selectedRows s' = selectedRows initialState
  /\ editingCell s' = editingCell initialState.
Proof.
  apply (handleFileUpload_loads initialState peopleCsv csvColumn alice [bob; carol]).
  reflexivity.
Defined.

(** X6. A file that parses into no row at all (a CSV without records, the
    empty JSON array) loads nothing and reports nothing: the state is the
    one of before with [isUploading] false, and the console is silent. *)
Theorem handleFileUpload_no_rows (s : State) (f : File) (mk : string -> Column) :
  parsedRows f = Some (mk, []) ->
  handleFileUpload s (Some f) = (setIsUploading s false, []).
Proof.
  unfold parsedRows, handleFileUpload. destruct (isCsv f).
  - destruct (papaParse f) as [[|? ?] ?|]; try discriminate. reflexivity.
  - destruct (isJson f); [|discriminate].
    destruct (jsonParse f) as [[[|? ?]|?]|]; try discriminate. reflexivity.
Qed.

Lemma handleFileUpload_no_rows_header_only :
  handleFileUpload initialState (Some headerOnlyCsv)
  = (setIsUploading initialState false, []).
Proof.
  apply (handleFileUpload_no_rows initialState headerOnlyCsv csvColumn).
  reflexivity.
Defined.

(** X7. In the upload view, a file that is neither taken as CSV (type
    [text/csv] or a name ending in [.csv]) nor as JSON (type
    [application/json]) sets [isUploading] and nothing ever clears it: the
    dataset stays empty, so only the file input is rendered, it is
    disabled, and the component offers no event at all any more. *)
Theorem unsupported_file_blocks (s : State) (f : File) :
  isCsv f = false -> isJson f = false ->
  elems (data s) = [] ->
  let s' := fst (handleFileUpload s (Some f)) in
  isUploading s' = true
  /\ elems (data s') = []
  /\ (forall e, enabled s' e = false)
  /\ (forall e es, uiRun s' (e :: es) = None).
Proof.
  intros Hcsv Hjson Hdata s'.
  assert (E : s' = setIsUploading s true).
  { unfold s', handleFileUpload. now rewrite Hcsv, Hjson. }
  assert (Hen : forall e, enabled s' e = false).
  { intros e. rewrite E. unfold enabled. cbn [data setIsUploading].
    rewrite Hdata. now destruct e. }
  rewrite E in *. repeat split; try assumption.
  intros e es. simpl uiRun. now rewrite Hen.
Qed.

Lemma unsupported_file_blocks_untyped_json :
  let s' := fst (handleFileUpload initialState (Some untypedJson)) in
  isUploading s' = true
  /\ elems (data s') = []
  /\ (forall e, enabled s' e = false)
  /\ (forall e es, uiRun s' (e :: es) = None).
Proof.
  apply (unsupported_file_blocks initialState untypedJson); reflexivity.
Defined.

Lemma trimmed_key_row (r : list (string * value)) (k : string) (V : value) :
  In k (Object_keys r) ->
  ~ In (JsString.trim k) (Object_keys r) ->
  row_get r (JsString.trim k) = VUndefined
  /\ Object_keys (row_set r (JsString.trim k) V)
     = Object_keys r ++ [JsString.trim k]
  /\ row_get (row_set r (JsString.trim k) V) k = row_get r k.
Proof.
  intros Hin Hout. repeat split.
  - now apply row_get_absent.
  - now apply row_set_keys_absent.
  - apply row_get_set_other. intros E. rewrite <- E in Hout. contradiction.
Qed.

(** X8. A CSV column is keyed by the trimmed header.  When trimming
    changes a key of the first parsed row, and the trimmed key is an
    ordinary key (not an array index, not a name of [Object.prototype])
    that is not itself a key of that row, the loaded table has a column
    under the trimmed key that reads [undefined] in the first row, and an
    edit of that cell adds the trimmed key to the projected row as a new
    last key: the value under the header as parsed stays as it was. *)
Theorem csv_header_trimmed (s : State) (f : File)
    (first : list (string * value)) (others : list (list (string * value)))
    (errors : list string) (k : string) (V : value) :
  isCsv f = true ->
  papaParse f = PapaComplete (first :: others) errors ->
  In k (Object_keys first) ->
  ~ In (JsString.trim k) (Object_keys first) ->
  ordinaryKey (JsString.trim k) = true ->
  let s' := fst (handleFileUpload s (Some f)) in
  In (csvColumn k) (columns s')
  /\ key (csvColumn k) = JsString.trim k
  /\ elems (filteredData s') !! 0 = Some (length (store s))
  /\ deref (store s') (length (store s)) = first
  /\ cellOf (store s') (key (csvColumn k)) (length (store s)) = VUndefined
  /\ exists s'' q,
       handleCellEdit s' 0 (key (csvColumn k)) V = Some s''
       /\ elems (filteredData s'') !! 0 = Some q
       /\ Object_keys (deref (store s'') q)
          = Object_keys first ++ [JsString.trim k]
       /\ row_get (deref (store s'') q) k = row_get first k
       /\ row_get (deref (store s'') q) (JsString.trim k) = V.
Proof.
  intros Hcsv Hp Hin Hout _ s'.
  destruct (trimmed_key_row first k V Hin Hout) as (Hu & Hk & Hv).
  assert (E : s' = loadRows s csvColumn (first :: others)).
  { unfold s', handleFileUpload. now rewrite Hcsv, Hp. }
  assert (Hfirst : deref (store s') (length (store s)) = first).
  { rewrite E. unfold deref, loadRows, allocAll. cbn [store].
    rewrite lookup_app_r by lia. now rewrite Nat.sub_diag. }
  assert (H0 : elems (filteredData s') !! 0 = Some (length (store s))).
  { rewrite E. reflexivity. }
  split. { rewrite E. cbn [loadRows allocAll columns]. now apply in_map. }
  split; [reflexivity|]. split; [exact H0|]. split; [exact Hfirst|].
  split. { unfold cellOf. rewrite Hfirst. exact Hu. }
  rewrite (handleCellEdit_run s' 0 _ V _ H0). cbv zeta.
  set (h1 := store s' ++ _).
  assert (Hlt : length (store s) < length (store s')).
  { rewrite E. cbn [loadRows allocAll store]. rewrite length_app. simpl. lia. }
  assert (Hd : deref h1 (length (store s)) = first).
  { rewrite <- Hfirst. unfold deref, h1. now rewrite lookup_app_l. }
  eexists _, (length h1). split; [reflexivity|].
  cbn [store filteredData elems arrayOf].
  assert (Hq : deref (h1 ++ [row_set (deref h1 (length (store s)))
                                     (key (csvColumn k)) V]) (length h1)
               = row_set first (JsString.trim k) V).
  { unfold deref at 1. rewrite lookup_app_r by lia. rewrite Nat.sub_diag.
    simpl. now rewrite Hd. }
  rewrite Hq. repeat split.
  - apply list_lookup_insert_eq. eapply lookup_lt_Some, H0.
  - exact Hk.
  - exact Hv.
  - apply row_get_set.
Qed.

Lemma csv_header_trimmed_spaced :
  let s' := fst (handleFileUpload initialState (Some spacedCsv)) in
  In (csvColumn " age") (columns s')
  /\ key (csvColumn " age") = JsString.trim " age"
  /\ elems (filteredData s') !! 0 = Some (length (store initialState))
  /\ deref (store s') (length (store initialState))
     = [("name", VStr "Alice"); (" age", VNum 30)]
  /\ cellOf (store s') (key (csvColumn " age")) (length (store initialState))
     = VUndefined
  /\ exists s'' q,
       handleCellEdit s' 0 (key (csvColumn " age")) (VStr "31") = Some s''
       /\ elems (filteredData s'') !! 0 = Some q
       /\ Object_keys (deref (store s'') q)
          = Object_keys [("name", VStr "Alice"); (" age", VNum 30)]
            ++ [JsString.trim " age"]
       /\ row_get (deref (store s'') q) " age"
          = row_get [("name", VStr "Alice"); (" age", VNum 30)] " age"
       /\ row_get (deref (store s'') q) (JsString.trim " age") = VStr "31".
Proof.
  apply (csv_header_trimmed initialState spacedCsv
           [("name", VStr "Alice"); (" age", VNum 30)] [] [] " age" (VStr "31")).
  - reflexivity.
  - reflexivity.
  - simpl. auto.
  - simpl. intros [H|[H|H]]; try discriminate; exact H.
  - reflexivity.
Defined.

Example spaced_csv_loaded :
  let s := fst (handleFileUpload initialState (Some spacedCsv)) in
  map key (columns s) = ["name"; "age"]
  /\ map (fun l => cellOf (store s) "age" l) (elems (filteredData s))
     = [VUndefined].
Proof. split; reflexivity. Qed.

(** ** A new row *)

Section BlankRow.

Let blank (r : list (string * value)) : Prop :=
  Forall (fun kv => snd kv = VStr "") r.

Lemma row_set_blank (r : list (string * value)) (k : string) :
  blank r -> blank (row_set r k (VStr "")).
Proof.
  unfold blank. induction 1 as [|[k' v'] r Hv Hr IH]; simpl.
  - repeat constructor.
  - destruct (String.eqb k' k); constructor; auto.
Qed.

Lemma row_set_keys_In (r : list (string * value)) (k k' : string) (v : value) :
  In k' (Object_keys (row_set r k v)) <-> k' = k \/ In k' (Object_keys r).
Proof.
  induction r as [|[k0 v0] r IH]; simpl.
  - intuition.
  - destruct (String.eqb_spec k0 k) as [->|Hne]; simpl; [intuition|].
    rewrite IH. intuition.
Qed.

Lemma fold_blank (cols : list Column) (acc : list (string * value)) :
  blank acc ->
  blank (fold_left (fun r col => row_set r (key col) (VStr "")) cols acc).
Proof.
  revert acc. induction cols as [|c cols IH]; intros acc Hb; simpl; [exact Hb|].
  apply IH. now apply row_set_blank.
Qed.

Lemma fold_keys_In (cols : list Column) (acc : list (string * value)) (k : string) :
  In k (Object_keys
          (fold_left (fun r col => row_set r (key col) (VStr "")) cols acc))
  <-> In k (Object_keys acc) \/ In k (map key cols).
Proof.
  revert acc. induction cols as [|c cols IH]; intros acc; simpl; [tauto|].
  rewrite IH, row_set_keys_In. intuition.
Qed.

Lemma fold_keys_NoDup (cols : list Column) (acc : list (string * value)) :
  List.NoDup (map key cols) ->
  (forall k, In k (map key cols) -> ~ In k (Object_keys acc)) ->
  Object_keys (fold_left (fun r col => row_set r (key col) (VStr "")) cols acc)
  = Object_keys acc ++ map key cols.
Proof.
  revert acc. induction cols as [|c cols IH]; intros acc Hnd Hdis; simpl.
  - now rewrite app_nil_r.
  - inversion Hnd as [|? ? Hc Hnd']; subst.
    rewrite IH; [| exact Hnd' |].
    + rewrite row_set_keys_absent by (apply Hdis; now left).
      now rewrite <- app_assoc.
    + intros k Hk. rewrite row_set_keys_In. intros [->|H]; [contradiction|].
      apply (Hdis k); [now right | exact H].
Qed.

Lemma blank_get (r : list (string * value)) (k : string) :
  blank r -> In k (Object_keys r) -> row_get r k = VStr "".
Proof.
  unfold blank. induction 1 as [|[k' v'] r Hv Hr IH]; simpl; [tauto|].
  destruct (String.eqb_spec k' k) as [->|Hne]; [intros _; exact Hv|].
  intros [H|H]; [contradiction | now apply IH].
Qed.

End BlankRow.

(** X9. When every key of the column schema is an ordinary key (not an
    array index, not a name of [Object.prototype]), [addNewRow] appends to
    the canonical array one new object whose own keys are exactly the
    schema's keys: each of them reads the empty string, every other
    ordinary key reads [undefined], and when the schema's keys are
    pairwise different the keys of the new row are the schema's keys in
    schema order.  Objects that existed keep their content. *)
Theorem addNewRow_blank_row (s : State) :
  Forall (fun c => ordinaryKey (key c) = true) (columns s) ->
  let s' := addNewRow s in
  let o := length (store s) in
  elems (data s') = elems (data s) ++ [o]
  /\ store s !! o = None
  /\ (forall l x, store s !! l = Some x -> store s' !! l = Some x)
  /\ (forall k, In k (Object_keys (deref (store s') o))
                <-> In k (map key (columns s)))
  /\ (forall k, In k (map key (columns s)) ->
        row_get (deref (store s') o) k = VStr "")
  /\ (forall k, ordinaryKey k = true -> ~ In k (map key (columns s)) ->
        row_get (deref (store s') o) k = VUndefined)
  /\ (List.NoDup (map key (columns s)) ->
      Object_keys (deref (store s') o) = map key (columns s)).
Proof.
  intros _. cbv zeta.
  assert (Hd : deref (store (addNewRow s)) (length (store s)) = blankRow (columns s)).
  { apply (deref_alloc (store s) (blankRow (columns s))). }
  rewrite Hd. unfold blankRow.
  split; [reflexivity|]. split; [apply lookup_ge_None; lia|].
  split; [intros l x Hl; now apply lookup_app_l_Some|].
  split; [|split; [|split]].
  - intros k. rewrite fold_keys_In. simpl. tauto.
  - intros k Hk. apply blank_get.
    + apply fold_blank. constructor.
    + apply fold_keys_In. now right.
  - intros k _ Hk. apply row_get_absent. rewrite fold_keys_In. simpl. tauto.
  - intros Hnd. now rewrite fold_keys_NoDup.
Qed.

Lemma addNewRow_blank_row_loaded :
  let s' := addNewRow loaded in
  let o := length (store loaded) in
  elems (data s') = elems (data loaded) ++ [o]
  /\ store loaded !! o = None
  /\ (forall l x, store loaded !! l = Some x -> store s' !! l = Some x)
  /\ (forall k, In k (Object_keys (deref (store s') o))
                <-> In k (map key (columns loaded)))
  /\ (forall k, In k (map key (columns loaded)) ->
        row_get (deref (store s') o) k = VStr "")
  /\ (forall k, ordinaryKey k = true -> ~ In k (map key (columns loaded)) ->
        row_get (deref (store s') o) k = VUndefined)
  /\ (List.NoDup (map key (columns loaded)) ->
      Object_keys (deref (store s') o) = map key (columns loaded)).
Proof.
  apply (addNewRow_blank_row loaded).
  simpl. repeat constructor.
Defined.

(** ** Sort, continued *)

Section Stability.

Lemma ltb_irrefl (t : string) : JsString.ltb t t = false.
Proof.
  induction t as [|a t IH]; simpl; [reflexivity|].
  now rewrite Nat.ltb_irrefl.
Qed.

Lemma js_lt_irrefl (v : value) : js_lt v v = false.
Proof.
  destruct v as [| |[|]|n|t]; simpl; try reflexivity.
  - apply Z.ltb_irrefl.
  - apply ltb_irrefl.
Qed.

Lemma value_eqb_eq (a b : value) : value_eqb a b = true <-> a = b.
Proof.
  destruct a as [| |x|x|x], b as [| |y|y|y]; simpl;
    try (split; [discriminate | congruence]); try tauto.
  - destruct x, y; simpl; split; congruence.
  - rewrite Z.eqb_eq. split; congruence.
  - rewrite String.eqb_eq. split; congruence.
Qed.

Variable cmp : nat -> nat -> Z.
Variable p : nat -> bool.
Hypothesis cmp_p : forall x y, p x = true -> p y = true -> cmp x y = 0%Z.

Lemma insertBy_filter (x : nat) (l : list nat) :
  List.filter p (insertBy cmp x l) = List.filter p (x :: l).
Proof.
  induction l as [|y l IH]; [reflexivity|].
  cbn [insertBy]. destruct (cmp x y <=? 0)%Z eqn:E; [reflexivity|].
  cbn [List.filter] in *. rewrite IH.
  destruct (p x) eqn:Px; [|reflexivity].
  destruct (p y) eqn:Py; [|reflexivity].
  rewrite (cmp_p x y Px Py) in E. discriminate.
Qed.

Lemma Array_sort_filter (l : list nat) :
  List.filter p (Array_sort cmp l) = List.filter p l.
Proof.
  induction l as [|x l IH]; [reflexivity|].
  cbn [Array_sort]. rewrite insertBy_filter. cbn [List.filter]. now rewrite IH.
Qed.

End Stability.

(** X10. On a column that holds numbers only or strings only, where
    [<] and [>] order the cells, the sort is stable in both directions:
    for every cell value, the rows whose cell in the sorted column is that
    value come in the new projection in the order they had in the old
    one. *)
Theorem handleSort_stable (s : State) (columnKey : string) (v : value) :
  Homogeneous (store s) columnKey (elems (filteredData s)) ->
  List.filter (fun l => value_eqb (cellOf (store s) columnKey l) v)
              (elems (filteredData (handleSort s columnKey)))
  = List.filter (fun l => value_eqb (cellOf (store s) columnKey l) v)
                (elems (filteredData s)).
Proof.
  intros _. simpl. apply Array_sort_filter. intros x y Hx Hy.
  apply value_eqb_eq in Hx, Hy. unfold compareRows, js_gt.
  unfold cellOf in Hx, Hy. rewrite Hx, Hy, js_lt_irrefl.
  now destruct (nextDirection (sortConfig s) columnKey).
Qed.

(** Two rows of age 30 around one of age 25, sorted by age. *)
Lemma handleSort_stable_ages :
  List.filter (fun l => value_eqb (cellOf (store tiedAges) "age" l) (VNum 30))
              (elems (filteredData (handleSort tiedAges "age")))
  = List.filter (fun l => value_eqb (cellOf (store tiedAges) "age" l) (VNum 30))
                (elems (filteredData tiedAges)).
Proof.
  apply (handleSort_stable tiedAges "age" (VNum 30)).
  left. repeat constructor; eexists; reflexivity.
Defined.

Example sort_tied_ages :
  elems (filteredData tiedAges) = [0; 1; 2]
  /\ elems (filteredData (handleSort tiedAges "age")) = [1; 0; 2]
  /\ elems (filteredData (handleSort (handleSort tiedAges "age") "age"))
     = [0; 2; 1].
Proof. repeat split; reflexivity. Qed.

(** ** Search, continued *)

Section SearchFacts.

Local Open Scope string_scope.

Lemma string_app_assoc (a b c : string) : (a ++ b) ++ c = a ++ b ++ c.
Proof. induction a as [|x a IH]; simpl; [reflexivity | now rewrite IH]. Qed.

Lemma whitespaceOnly_app (a b : string) :
  whitespaceOnly (a ++ b) = whitespaceOnly a && whitespaceOnly b.
Proof.
  induction a as [|x a IH]; simpl; [reflexivity|].
  now rewrite IH, andb_assoc.
Qed.

End SearchFacts.

(** X11. A search rebuilds the projection from the canonical dataset and
    so undoes a sort: after a click on a column header and then a search,
    the projection is in dataset order (the matching rows of the dataset
    for a term that is not blank, the dataset itself otherwise), the same
    as without the click, while the sort configuration still names the
    column as sorted. *)
Theorem handleSearch_discards_sort (s : State) (columnKey term : string) :
  let s' := handleSearch (handleSort s columnKey) term in
  filteredData s' = filteredData (handleSearch s term)
  /\ (whitespaceOnly term = true -> filteredData s' = data s)
  /\ (whitespaceOnly term = false ->
      Keeps (MatchesTerm (store s) term) (elems (data s))
            (elems (filteredData s')))
  /\ sortKey (sortConfig s') = Some columnKey
  /\ direction (sortConfig s') = nextDirection (sortConfig s) columnKey.
Proof.
  cbv zeta. split; [reflexivity|]. split; [|split; [|split; reflexivity]].
  - intros Hw. now rewrite (handleSearch_blank _ _ Hw).
  - intros Hw. unfold handleSearch; simpl. rewrite trim_blank, Hw. simpl.
    apply filter_Keeps. intros x. apply rowMatches_spec.
Qed.

Section SearchCase.

Local Open Scope string_scope.

Lemma isWhiteSpace_lowerUnit (c : ascii) :
  JsString.isWhiteSpace (JsString.lowerUnit c) = JsString.isWhiteSpace c.
Proof. destruct c as [[] [] [] [] [] [] [] []]; reflexivity. Qed.

Lemma whitespaceOnly_toLowerCase (t : string) :
  whitespaceOnly (JsString.toLowerCase t) = whitespaceOnly t.
Proof.
  induction t as [|c t IH]; simpl; [reflexivity|].
  now rewrite isWhiteSpace_lowerUnit, IH.
Qed.

(** A term whose lower-cased form holds the lower-cased form of a term
    that is not blank is not blank either. *)
Lemma containsIgnoringCase_not_blank (t' t : string) :
  containsIgnoringCase t' t -> whitespaceOnly t = false ->
  whitespaceOnly t' = false.
Proof.
  intros (pre & post & E) Ht.
  rewrite <- whitespaceOnly_toLowerCase, E, !whitespaceOnly_app.
  rewrite whitespaceOnly_toLowerCase, Ht. now rewrite andb_false_r.
Qed.

Lemma containsIgnoringCase_trans (v t' t : string) :
  containsIgnoringCase v t' -> containsIgnoringCase t' t ->
  containsIgnoringCase v t.
Proof.
  intros (a & b & E1) (pre & post & E2).
  exists (a ++ pre), (post ++ b).
  rewrite E1, E2. now rewrite !string_app_assoc.
Qed.

End SearchCase.

(** X12. Narrowing a search never brings a row back: when the lower-cased
    form of the term [t] occurs in the lower-cased form of the term [t'],
    every row shown for [t'] is shown for [t]. *)
Theorem handleSearch_narrows (s : State) (t' t : string) (l : nat) :
  containsIgnoringCase t' t ->
  In l (elems (filteredData (handleSearch s t'))) ->
  In l (elems (filteredData (handleSearch s t))).
Proof.
  intros Hc. unfold handleSearch; simpl. rewrite !trim_blank.
  destruct (whitespaceOnly t) eqn:Ht.
  - destruct (whitespaceOnly t'); simpl; [tauto|]. rewrite filter_In. tauto.
  - rewrite (containsIgnoringCase_not_blank t' t Hc Ht). simpl.
    rewrite !filter_In. intros [Hin Hm]. split; [exact Hin|].
    apply rowMatches_spec. apply rowMatches_spec in Hm.
    destruct Hm as (v & Hv & Hvt). exists v. split; [exact Hv|].
    now apply (containsIgnoringCase_trans _ t' t).
Qed.

(** Alice is shown for [ali], hence for [AL]. *)
Lemma handleSearch_narrows_ali :
  In 0 (elems (filteredData (handleSearch loaded "AL"))).
Proof.
  apply (handleSearch_narrows loaded "ali" "AL" 0).
  - exists "", "i". reflexivity.
  - simpl. auto.
Defined.

(** ** Cell edits, continued *)

(** X13. After one edit of a projected row the projection and the
    canonical array hold different objects for it, so a second edit of the
    same projected row never reaches the canonical dataset: its elements
    and their contents are those left by the first edit, only the
    projection shows the second value, and the next rebuild of the
    projection from the dataset (a blank search) shows the canonical rows
    again. *)
Theorem second_edit_is_lost (s : State) (r : nat) (c1 c2 : string)
    (V1 V2 : value) :
  wellFormed s ->
  r < length (elems (filteredData s)) ->
  exists s1 s2 q1 q2,
    handleCellEdit s r c1 V1 = Some s1
    /\ handleCellEdit s1 r c2 V2 = Some s2
    /\ elems (filteredData s1) !! r = Some q1
    /\ ~ In q1 (elems (data s1))
    /\ elems (data s2) = elems (data s1)
    /\ (forall l, In l (elems (data s2)) ->
          deref (store s2) l = deref (store s1) l)
    /\ elems (filteredData s2) !! r = Some q2
    /\ row_get (deref (store s2) q2) c2 = V2
    /\ elems (filteredData (handleSearch s2 "")) = elems (data s1).
Proof.
  intros Hwf Hr. destruct (lookup_lt_is_Some_2 _ _ Hr) as [p Hp].
  destruct (handleCellEdit s r c1 V1) as [s1|] eqn:E1;
    [|rewrite (handleCellEdit_run s r c1 V1 p Hp) in E1; discriminate].
  pose proof (handleCellEdit_wellFormed _ _ _ _ _ Hwf E1) as [Hwd1 _].
  rewrite (handleCellEdit_run s r c1 V1 p Hp) in E1. cbv zeta in E1.
  set (q1 := length (store s ++ [match findIndex (elems (data s)) p with
                                 | Some i => row_set (spreadAt (store s) (elems (data s)) i) c1 V1
                                 | None => row_set [] c1 V1
                                 end])) in E1.
  assert (Hq1v : q1 = S (length (store s))).
  { unfold q1. rewrite length_app. simpl. lia. }
  assert (Hq1 : elems (filteredData s1) !! r = Some q1).
  { injection E1 as <-. cbn [filteredData elems arrayOf].
    now apply list_lookup_insert_eq. }
  assert (Hnot : ~ In q1 (elems (data s1))).
  { destruct Hwf as [Hd _]. unfold allocated in Hd.
    rewrite List.Forall_forall in Hd.
    injection E1 as <-. cbn [data].
    destruct (findIndex (elems (data s)) p) as [i|]; cbn [elems arrayOf].
    - intros Hin. apply list_elem_of_In, list_elem_of_lookup in Hin as [j Hj].
      destruct (Nat.eq_dec i j) as [<-|Hne].
      + destruct (Nat.lt_ge_cases i (length (elems (data s)))) as [Hlt|Hge].
        * rewrite list_lookup_insert_eq in Hj by exact Hlt.
          injection Hj as Hj. lia.
        * rewrite list_insert_ge in Hj by exact Hge.
          apply list_elem_of_lookup_2, list_elem_of_In, Hd in Hj. lia.
      + rewrite list_lookup_insert_ne in Hj by exact Hne.
        apply list_elem_of_lookup_2, list_elem_of_In, Hd in Hj. lia.
    - intros Hin. apply Hd in Hin. lia. }
  pose proof (proj2 (findIndex_None _ _) Hnot) as Hfi.
  exists s1. rewrite (handleCellEdit_run s1 r c2 V2 q1 Hq1), Hfi. cbv zeta.
  set (h1 := store s1 ++ [row_set [] c2 V2]).
  eexists _, q1, (length h1). split; [reflexivity|]. split; [reflexivity|].
  cbn [store data filteredData elems arrayOf].
  split; [exact Hq1|]. split; [exact Hnot|]. split; [reflexivity|].
  split; [|split; [|split]].
  - intros l Hl. unfold allocated in Hwd1. rewrite List.Forall_forall in Hwd1.
    specialize (Hwd1 l Hl). unfold deref, h1.
    now rewrite !lookup_app_l by (rewrite ?length_app; simpl; lia).
  - apply list_lookup_insert_eq. eapply lookup_lt_Some, Hq1.
  - unfold deref at 1. rewrite lookup_app_r by lia. rewrite Nat.sub_diag.
    apply row_get_set.
  - reflexivity.
Qed.

Lemma second_edit_is_lost_loaded :
  exists s1 s2 q1 q2,
    handleCellEdit loaded 0 "name" (VStr "A") = Some s1
    /\ handleCellEdit s1 0 "name" (VStr "Al") = Some s2
    /\ elems (filteredData s1) !! 0 = Some q1
    /\ ~ In q1 (elems (data s1))
    /\ elems (data s2) = elems (data s1)
    /\ (forall l, In l (elems (data s2)) ->
          deref (store s2) l = deref (store s1) l)
    /\ elems (filteredData s2) !! 0 = Some q2
    /\ row_get (deref (store s2) q2) "name" = VStr "Al"
    /\ elems (filteredData (handleSearch s2 "")) = elems (data s1).
Proof.
  apply (second_edit_is_lost loaded 0 "name" "name" (VStr "A") (VStr "Al")).
  - split; unfold allocated; simpl; repeat (constructor; [lia|]); constructor.
  - simpl. lia.
Defined.

(** ** Invariants of the reachable states *)

Section Counts.

Lemma loadRows_counts (s : State) (mk : string -> Column)
    (rows : list (list (string * value))) :
  length (elems (filteredData s)) <= length (elems (data s)) ->
  length (elems (filteredData (loadRows s mk rows)))
  <= length (elems (data (loadRows s mk rows))).
Proof. intros H. destruct rows; simpl; [exact H | lia]. Qed.

Lemma step_counts (s s' : State) (e : Event) :
  length (elems (filteredData s)) <= length (elems (data s)) ->
  step s e = Some s' ->
  length (elems (filteredData s')) <= length (elems (data s')).
Proof.
  intros H. destruct e; simpl; try (intros [= <-]; simpl; first [exact H | lia]).
  - intros [= <-]. unfold handleFileUpload.
    destruct file as [f|]; [|exact H].
    destruct (isCsv f).
    + destruct (papaParse f); [now apply loadRows_counts | exact H].
    + destruct (isJson f); [|exact H].
      destruct (jsonParse f) as [[rows|r]|]; [| |exact H];
        now apply loadRows_counts.
  - intros [= <-]. simpl.
    destruct (String.eqb (JsString.trim term) ""); simpl; [lia|].
    apply List.filter_length_le.
  - intros [= <-]. simpl.
    rewrite <- (Permutation_length (Array_sort_perm _ (elems (filteredData s)))).
    exact H.
  - unfold handleCellEdit.
    destruct (elems (filteredData s) !! rowIndex); [|discriminate].
    destruct (findIndex (elems (data s)) n); intros [= <-]; simpl;
      rewrite ?length_insert; exact H.
Qed.

End Counts.

(** X14. In every reachable state the projection holds at most as many
    rows as the canonical dataset: in [Showing N of M rows], N never
    exceeds M. *)
Theorem reachable_shown_le_total (s : State) :
  reachable s ->
  length (elems (filteredData s)) <= length (elems (data s)).
Proof.
  intros [es Hes].
  assert (H : forall es s0,
             length (elems (filteredData s0)) <= length (elems (data s0)) ->
             run s0 es = Some s ->
             length (elems (filteredData s)) <= length (elems (data s))).
  { clear. induction es as [|e es IH]; intros s0 H0; simpl.
    - now intros [= <-].
    - destruct (step s0 e) as [s1|] eqn:E; [|discriminate].
      apply IH. eapply step_counts; eauto. }
  apply (H es initialState); [simpl; lia | exact Hes].
Qed.

Lemma reachable_shown_le_total_searched :
  length (elems (filteredData searchedAli)) <= length (elems (data searchedAli)).
Proof.
  apply (reachable_shown_le_total searchedAli).
  exists [Upload (Some peopleCsv); Search "ali"]. reflexivity.
Defined.

Section UiFacts.

Lemma step_isUploading (s s' : State) (e : Event) :
  enabled s e = true -> step s e = Some s' ->
  (isUploading s = true -> elems (data s) = []) ->
  isUploading s' = true -> elems (data s') = [].
Proof.
  intros Hen Hstep Hinv.
  assert (Hcase : (elems (data s) = [] /\ isUploading s = false
                   /\ exists file, e = Upload file)
                  \/ (isUploading s = false /\ forall file, e <> Upload file)).
  { unfold enabled in Hen. destruct (elems (data s)) eqn:Ed.
    - left. destruct e; try discriminate. apply negb_true_iff in Hen. eauto.
    - right. destruct (isUploading s) eqn:Eu.
      + specialize (Hinv eq_refl). discriminate.
      + split; [reflexivity|]. intros file ->. discriminate. }
  destruct Hcase as [(Hd & Hu & file & ->)|[Hu Hne]].
  - simpl in Hstep. injection Hstep as <-. unfold handleFileUpload.
    destruct file as [f|]; [|simpl; congruence].
    destruct (isCsv f).
    + destruct (papaParse f) as [[|? ?] ?|]; simpl; congruence.
    + destruct (isJson f); [|simpl; intros _; exact Hd].
      destruct (jsonParse f) as [[[|? ?]|?]|]; simpl; congruence.
  - destruct e; simpl in Hstep;
      try (injection Hstep as <-; simpl; congruence);
      try (exfalso; eapply Hne; reflexivity).
    unfold handleCellEdit in Hstep.
    destruct (elems (filteredData s) !! rowIndex); [|discriminate].
    destruct (findIndex (elems (data s)) n); injection Hstep as <-; simpl;
      congruence.
Qed.

Lemma uiRun_isUploading (es : list Event) (s s' : State) :
  uiRun s es = Some s' ->
  (isUploading s = true -> elems (data s) = []) ->
  isUploading s' = true -> elems (data s') = [].
Proof.
  revert s. induction es as [|e es IH]; intros s; simpl.
  - now intros [= <-].
  - destruct (enabled s e) eqn:Hen; [|discriminate].
    destruct (step s e) as [s1|] eqn:Hs; [|discriminate].
    intros Hrun Hinv. apply (IH s1 Hrun).
    now apply (step_isUploading s s1 e).
Qed.

(** An event the component offers is always handled: the edit handler is
    only called on a rendered row. *)
Lemma enabled_step (s : State) (e : Event) :
  enabled s e = true -> exists s', step s e = Some s'.
Proof.
  intros Hen. destruct e; simpl; eauto.
  unfold enabled in Hen. destruct (elems (data s)); [discriminate|].
  apply andb_true_iff in Hen as [Hen _]. apply andb_true_iff in Hen as [Hen _].
  unfold renderedCell in Hen. apply andb_true_iff in Hen as [Hr _].
  apply Nat.ltb_lt in Hr. destruct (lookup_lt_is_Some_2 _ _ Hr) as [p Hp].
  rewrite (handleCellEdit_run s rowIndex columnKey newValue p Hp). eauto.
Qed.

End UiFacts.

(** X15. In every state a user can reach in which the table is shown,
    [isUploading] is false; so after New Upload or EXIT ([resetDataGrid],
    which does not touch [isUploading]) the upload view is back with its
    file input enabled. *)
Theorem reset_offers_upload (s : State) (file : option File) :
  uiReachable s ->
  elems (data s) <> [] ->
  isUploading s = false
  /\ enabled s Reset = true
  /\ elems (data (resetDataGrid s)) = []
  /\ enabled (resetDataGrid s) (Upload file) = true.
Proof.
  intros [es Hes] Hne.
  assert (Hu : isUploading s = false).
  { destruct (isUploading s) eqn:E; [|reflexivity]. exfalso. apply Hne.
    apply (uiRun_isUploading es initialState s Hes); [discriminate | exact E]. }
  split; [exact Hu|]. split.
  - unfold enabled. destruct (elems (data s)); [contradiction | reflexivity].
  - split; [reflexivity|]. unfold enabled. simpl. now rewrite Hu.
Qed.

Lemma reset_offers_upload_loaded :
  isUploading loaded = false
  /\ enabled loaded Reset = true
  /\ elems (data (resetDataGrid loaded)) = []
  /\ enabled (resetDataGrid loaded) (Upload (Some cityJson)) = true.
Proof.
  apply (reset_offers_upload loaded (Some cityJson)).
  - exists [Upload (Some peopleCsv)]. reflexivity.
  - simpl. discriminate.
Defined.

(** X16. Whatever sequence of events the component offers, each one is
    handled: a run of offered events ends in a state, so the edit handler
    is never called with an index beyond the projection, and that state
    holds no dangling row reference. *)
Theorem ui_events_are_handled (s : State) (e : Event) :
  uiReachable s ->
  enabled s e = true ->
  exists s', step s e = Some s' /\ uiReachable s' /\ wellFormed s'.
Proof.
  intros [es Hes] Hen. destruct (enabled_step s e Hen) as [s' Hs'].
  assert (Hrun : uiRun initialState (es ++ [e]) = Some s').
  { revert Hes. generalize initialState.
    induction es as [|e0 es IH]; intros s0; simpl.
    - intros [= ->]. now rewrite Hen, Hs'.
    - destruct (enabled s0 e0); [|discriminate].
      destruct (step s0 e0); [|discriminate]. apply IH. }
  exists s'. split; [exact Hs'|]. split; [now exists (es ++ [e])|].
  assert (Hreach : forall es s0, wellFormed s0 -> uiRun s0 es = Some s' -> wellFormed s').
  { clear. induction es as [|e es IH]; intros s0 Hwf; simpl.
    - now intros [= <-].
    - destruct (enabled s0 e); [|discriminate].
      destruct (step s0 e) as [s1|] eqn:E; [|discriminate].
      apply IH. eapply step_wellFormed; eauto. }
  apply (Hreach (es ++ [e]) initialState); [split; constructor | exact Hrun].
Qed.

Lemma ui_events_are_handled_keystroke :
  exists s',
    step (beginEdit loaded 1 "name") (CommitEdit 1 "name" (VStr "Bobb")) = Some s'
    /\ uiReachable s' /\ wellFormed s'.
Proof.
  apply (ui_events_are_handled (beginEdit loaded 1 "name")
           (CommitEdit 1 "name" (VStr "Bobb"))).
  - exists [Upload (Some peopleCsv); BeginEdit 1 "name"]. reflexivity.
  - reflexivity.
Defined.

(** X17. A click on a header whose column reads the same in every
    projected row (for one, a key that no row has: every cell is
    [undefined]) leaves the order of the projection as it is, and records
    the column as the sorted one all the same. *)
Theorem handleSort_constant_column (s : State) (columnKey : string) (v : value) :
  (forall l, In l (elems (filteredData s)) -> cellOf (store s) columnKey l = v) ->
  elems (filteredData (handleSort s columnKey)) = elems (filteredData s)
  /\ sortKey (sortConfig (handleSort s columnKey)) = Some columnKey.
Proof.
  intros Hconst. split; [|reflexivity]. simpl.
  set (cmp := compareRows (store s) columnKey (nextDirection (sortConfig s) columnKey)).
  set (p := fun l => value_eqb (cellOf (store s) columnKey l) v).
  assert (Hp : forall l, In l (elems (filteredData s)) -> p l = true).
  { intros l Hl. unfold p. apply value_eqb_eq. now apply Hconst. }
  assert (Hf : List.filter p (Array_sort cmp (elems (filteredData s)))
               = List.filter p (elems (filteredData s))).
  { apply Array_sort_filter. intros x y Hx Hy. unfold p in Hx, Hy.
    apply value_eqb_eq in Hx, Hy. unfold cmp, compareRows, js_gt.
    unfold cellOf in Hx, Hy. rewrite Hx, Hy, js_lt_irrefl.
    now destruct (nextDirection (sortConfig s) columnKey). }
  rewrite (filter_all p (elems (filteredData s)) Hp) in Hf.
  transitivity (List.filter p (Array_sort cmp (elems (filteredData s))));
    [|exact Hf].
  symmetry. apply filter_all. intros l Hl. apply Hp.
  eapply Permutation_in; [|exact Hl].
  apply Permutation_sym, Array_sort_perm.
Qed.

Lemma handleSort_constant_column_missing :
  elems (filteredData (handleSort loaded "email")) = elems (filteredData loaded)
  /\ sortKey (sortConfig (handleSort loaded "email")) = Some "email".
Proof.
  apply (handleSort_constant_column loaded "email" VUndefined).
  simpl. intros l [<-|[<-|[<-|[]]]]; reflexivity.
Defined.
